(** * Employee ingestion service: store model and handler properties

    A shallow embedding of [main.py]: the two route handlers
    [upload_employees] and [get_employees], the two tables they work on,
    and the parts of Python, pandas, SQLite and pydantic whose behaviour
    the handlers depend on.

    Conventions.
    - A table is the list of its rows in storage order.
    - A database session is a pair: the database as committed, and the
      view of the open transaction.
    - Python exceptions are values of [exn]; a computation that may raise
      returns an [outcome]. *)

From Stdlib Require Import ZArith String List Lia DecimalString.
From Stdlib Require Import Floats.SpecFloat.
From stdpp Require Import base option list gmap strings pretty.

Local Open Scope string_scope.
Local Open Scope list_scope.
Local Open Scope Z_scope.

(** ** Python values found in a data frame *)

(** A Python [float] is an IEEE binary64 value. *)
Abbreviation pyfloat := spec_float.

Definition prec : Z := 53.
Definition emax : Z := 1024.

(** One cell of a data frame, as [row["COL"]] hands it to the handler:
    an [int], a [float] (a missing value is the float NaN) or a [str].
    These are the values a CSV file gives; the dates and booleans a
    spreadsheet may hold besides are left out. *)
Inductive cell : Type :=
  | CInt (z : Z)
  | CFloat (f : pyfloat)
  | CStr (s : string).

Definition NaN : cell := CFloat S754_nan.

Inductive exn : Type :=
  | ValueError
  | OverflowError
  | KeyError
  | IntegrityError
  | ValidationError.

Inductive outcome (A : Type) : Type :=
  | Ok (a : A)
  | Raise (e : exn).
Arguments Ok {A} a.
Arguments Raise {A} e.

#[global] Instance outcome_ret : MRet outcome := fun A a => Ok a.
#[global] Instance outcome_fmap : FMap outcome := fun A B f m =>
  match m with
  | Ok a => Ok (f a)
  | Raise e => Raise e
  end.
#[global] Instance outcome_bind : MBind outcome := fun A B k m =>
  match m with
  | Ok a => k a
  | Raise e => Raise e
  end.

(** The text conversions of the Python runtime and of SQLite that the
    handler reaches through [int], [float] and [str] on text and on
    floats.  They are library code, kept abstract. *)
Class Runtime : Type := {
  (** [int(s)] on a [str]; [None] when it raises ValueError. *)
  int_of_str : string -> option Z;
  (** [float(s)] on a [str]; [None] when it raises ValueError. *)
  float_of_str : string -> option pyfloat;
  (** [str(x)] on a [float]. *)
  str_of_float : pyfloat -> string;
  (** The text SQLite stores when a REAL other than NaN is bound to a
      column of TEXT affinity. *)
  text_of_float : pyfloat -> string
}.

(** [pd.isnull(x)] *)
Definition isnull (c : cell) : bool :=
  match c with
  | CFloat S754_nan => true
  | _ => false
  end.

(** The integer part of a finite float, rounding towards zero. *)
Definition float_trunc (s : bool) (m : positive) (e : Z) : Z :=
  let a := if 0 <=? e then Z.pos m * 2 ^ e else Z.pos m / 2 ^ (- e) in
  if s then - a else a.

(** The integer a float is equal to, when it is one. *)
Definition float_integer (f : pyfloat) : option Z :=
  match f with
  | S754_zero _ => Some 0
  | S754_finite s m e =>
      if (0 <=? e) || (Z.pos m mod 2 ^ (- e) =? 0)
      then Some (float_trunc s m e) else None
  | _ => None
  end.

Section Coercions.
Context {rt : Runtime}.

(** [int(x)] *)
Definition py_int (c : cell) : outcome Z :=
  match c with
  | CInt z => Ok z
  | CFloat S754_nan => Raise ValueError
  | CFloat (S754_infinity _) => Raise OverflowError
  | CFloat (S754_zero _) => Ok 0
  | CFloat (S754_finite s m e) => Ok (float_trunc s m e)
  | CStr s =>
      match int_of_str s with
      | Some z => Ok z
      | None => Raise ValueError
      end
  end.

(** [float(x)]: an [int] is rounded to the nearest binary64 value and
    raises OverflowError when it is too large for one. *)
Definition py_float (c : cell) : outcome pyfloat :=
  match c with
  | CInt z =>
      match binary_normalize prec emax z 0 false with
      | S754_infinity _ => Raise OverflowError
      | f => Ok f
      end
  | CFloat f => Ok f
  | CStr s =>
      match float_of_str s with
      | Some f => Ok f
      | None => Raise ValueError
      end
  end.

(** [str(x)] *)
Definition py_str (c : cell) : string :=
  match c with
  | CInt z => pretty z
  | CFloat f => str_of_float f
  | CStr s => s
  end.
End Coercions.

(** Equality of two cells as [drop_duplicates] sees it: numbers compare by
    value whatever their type, and two missing values are duplicates. *)
Definition cell_eqb (a b : cell) : bool :=
  match a, b with
  | CStr s, CStr t => String.eqb s t
  | CInt x, CInt y => x =? y
  | CFloat S754_nan, CFloat S754_nan => true
  | CFloat f, CFloat g => SFeqb f g
  | CInt x, CFloat f | CFloat f, CInt x =>
      match float_integer f with
      | Some y => x =? y
      | None => false
      end
  | _, _ => false
  end.

(** ** Data frames *)

(** A parsed table: the column names and, for each record, its cells in
    column order.  A record shorter than the header reads as padded with
    missing values, which is how the pandas readers fill it.  A cell is
    the same value whether read through its column or through its row,
    as it is in a frame with a text column. *)
Record DataFrame : Type := {
  columns : list string;
  rows : list (list cell)
}.

Fixpoint index_of (col : string) (cols : list string) : option nat :=
  match cols with
  | [] => None
  | c :: cols' =>
      if String.eqb c col then Some O
      else S <$> index_of col cols'
  end.

(** [row["COL"]] *)
Definition row_getitem (df : DataFrame) (row : list cell) (col : string)
  : outcome cell :=
  match index_of col (columns df) with
  | Some i => Ok (default NaN (row !! i))
  | None => Raise KeyError
  end.

(** [df["COL"]] *)
Definition df_getitem (df : DataFrame) (col : string) : outcome (list cell) :=
  match index_of col (columns df) with
  | Some i => Ok ((fun row => default NaN (row !! i)) <$> rows df)
  | None => Raise KeyError
  end.

(** [Series.drop_duplicates().tolist()]: the first occurrence of every
    value, in order of appearance. *)
Fixpoint drop_duplicates_from (seen : list cell) (l : list cell) : list cell :=
  match l with
  | [] => []
  | c :: l' =>
      if existsb (cell_eqb c) seen then drop_duplicates_from seen l'
      else c :: drop_duplicates_from (c :: seen) l'
  end.

Definition drop_duplicates (l : list cell) : list cell :=
  drop_duplicates_from [] l.

(** ** The relational store *)

(** Table [companies]. *)
Module Company.
Record t : Type := {
  id : Z;
  company_name : option string
}.
End Company.

(** Table [employees]; [Employee.new] is an instance not yet saved, with
    the values the handler passes to the constructor. *)
Module Employee.
Record t : Type := {
  id : Z;
  employee_id : option Z;
  first_name : option string;
  last_name : option string;
  phone_number : option string;
  salary : option pyfloat;
  manager_id : option Z;
  department_id : option Z;
  company_id : option Z
}.

Record new : Type := {
  new_employee_id : Z;
  new_first_name : string;
  new_last_name : string;
  new_phone_number : string;
  new_salary : pyfloat;
  new_manager_id : option Z;
  new_department_id : option Z;
  new_company_id : Z
}.
End Employee.

Record DB : Type := {
  companies : list Company.t;
  employees : list Employee.t
}.

(** A session: the database as last committed and the view of the
    transaction in progress. *)
Record Session : Type := {
  disk : DB;
  txn : DB
}.

Definition SessionLocal (db : DB) : Session := {| disk := db; txn := db |}.

(** A computation in a session: it may raise, and leaves the session in
    a new state either way. *)
Definition Sess (A : Type) : Type := Session -> outcome A * Session.

#[global] Instance Sess_ret : MRet Sess := fun A a s => (Ok a, s).
#[global] Instance Sess_bind : MBind Sess := fun A B k m s =>
  match m s with
  | (Ok a, s') => k a s'
  | (Raise e, s') => (Raise e, s')
  end.

Definition lift {A} (m : outcome A) : Sess A := fun s => (m, s).

Definition raise {A} (e : exn) : Sess A := fun s => (Raise e, s).

(** Read, or replace, a table in the view of the open transaction. *)
Definition gets {A} (f : DB -> A) : Sess A := fun s => (Ok (f (txn s)), s).

Definition set_companies (table : list Company.t) : Sess unit :=
  fun s => (Ok tt, {| disk := disk s;
                      txn := {| companies := table;
                                employees := employees (txn s) |} |}).

Definition set_employees (table : list Employee.t) : Sess unit :=
  fun s => (Ok tt, {| disk := disk s;
                      txn := {| companies := companies (txn s);
                                employees := table |} |}).

(** [session.commit()]: the view of the transaction becomes the
    database. *)
Definition commit : Sess unit :=
  fun s => (Ok tt, {| disk := txn s; txn := txn s |}).

(** [session.rollback()]: the view of the transaction is given up. *)
Definition rollback (s : Session) : Session :=
  {| disk := disk s; txn := disk s |}.

(** [session.close()]: what remains is the database as committed. *)
Definition close (s : Session) : DB := disk s.

(** SQLite holds an INTEGER in 64 bits; binding a larger Python [int]
    raises OverflowError. *)
Definition fits_int64 (z : Z) : bool := (- 2 ^ 63 <=? z) && (z <? 2 ^ 63).

Definition sql_int (z : Z) : outcome Z :=
  if fits_int64 z then Ok z else Raise OverflowError.

Definition sql_opt_int (z : option Z) : outcome (option Z) :=
  match z with
  | Some z => Some <$> sql_int z
  | None => Ok None
  end.

(** A float as a REAL column gives it back: SQLite stores a NaN as NULL
    and a zero without its sign. *)
Definition sql_real (f : pyfloat) : option pyfloat :=
  match f with
  | S754_nan => None
  | S754_zero _ => Some (S754_zero false)
  | _ => Some f
  end.

(** The row id SQLite gives a new row: one more than the largest in use. *)
Definition next_id (ids : list Z) : Z :=
  match ids with
  | [] => 1
  | i :: ids' => 1 + fold_right Z.max i ids'
  end.

Section Store.
Context {rt : Runtime}.

(** A Python value bound to [company_name], a column of TEXT affinity:
    NULL for NaN, the value as text otherwise. *)
Definition sql_text (c : cell) : outcome (option string) :=
  match c with
  | CStr s => Ok (Some s)
  | CInt z => z' ← sql_int z; Ok (Some (pretty z'))
  | CFloat S754_nan => Ok None
  | CFloat f => Ok (Some (text_of_float f))
  end.

(** [session.query(Company).filter(Company.company_name.in_(names)).all()]
    A row whose name is NULL is in no list. *)
Definition query_companies_in (names : list cell) : Sess (list Company.t) :=
  bound ← lift (mapM sql_text names);
  table ← gets companies;
  mret (filter (fun c => is_Some (Company.company_name c)
                         ∧ Company.company_name c ∈ bound) table).

(** INSERT of one [Company(company_name=name)]; [company_name] is
    UNIQUE, which NULL never violates. *)
Definition insert_company (name : cell) : Sess unit :=
  text ← lift (sql_text name);
  table ← gets companies;
  if bool_decide (is_Some text ∧ text ∈ Company.company_name <$> table)
  then raise IntegrityError
  else set_companies
         (table ++ [ {| Company.id := next_id (Company.id <$> table);
                        Company.company_name := text |} ]).

(** INSERT of one [Employee]; [employee_id] is UNIQUE.  The company
    id was read from the store, so it fits; foreign keys are not
    enforced. *)
Definition insert_employee (e : Employee.new) : Sess unit :=
  employee_id ← lift (sql_int (Employee.new_employee_id e));
  manager_id ← lift (sql_opt_int (Employee.new_manager_id e));
  department_id ← lift (sql_opt_int (Employee.new_department_id e));
  let company_id := Employee.new_company_id e in
  table ← gets employees;
  if bool_decide (Some employee_id ∈ Employee.employee_id <$> table)
  then raise IntegrityError
  else set_employees
         (table ++ [ {| Employee.id := next_id (Employee.id <$> table);
                        Employee.employee_id := Some employee_id;
                        Employee.first_name := Some (Employee.new_first_name e);
                        Employee.last_name := Some (Employee.new_last_name e);
                        Employee.phone_number :=
                          Some (Employee.new_phone_number e);
                        Employee.salary := sql_real (Employee.new_salary e);
                        Employee.manager_id := manager_id;
                        Employee.department_id := department_id;
                        Employee.company_id := Some company_id |} ]).

(** [session.bulk_save_objects(objs)]: one INSERT per object, in order;
    the first one that fails raises. *)
Fixpoint bulk_save_objects {A} (insert : A -> Sess unit) (objs : list A)
  : Sess unit :=
  match objs with
  | [] => mret tt
  | o :: objs' => insert o ;; bulk_save_objects insert objs'
  end.

(** [session.query(Employee).all()] *)
Definition query_employees : Sess (list Employee.t) := gets employees.

(** [session.query(Company).filter(Company.id == i).first()]; comparing
    with [None] selects nothing, the key being never NULL. *)
Definition query_company_by_id (i : option Z) : Sess (option Company.t) :=
  table ← gets companies;
  mret (match i with
        | Some i => find (fun c => bool_decide (Company.id c = i)) table
        | None => None
        end).
End Store.

(** ** Response schemas *)

Record UploadResponse : Type := {
  message : string;
  companies_created : nat;
  employees_created : nat
}.

(** [EmployeeResponse]: a field declared without [Optional] rejects
    [None], and the constructor raises a validation error. *)
Module EmployeeResponse.
Record t : Type := {
  employee_id : Z;
  first_name : string;
  last_name : string;
  phone_number : string;
  salary : pyfloat;
  manager_id : option Z;
  department_id : option Z;
  company_name : string
}.

Definition required {A} (v : option A) : outcome A :=
  match v with
  | Some a => Ok a
  | None => Raise ValidationError
  end.

Definition make (employee_id : option Z)
    (first_name last_name phone_number : option string)
    (salary : option pyfloat) (manager_id department_id : option Z)
    (company_name : option string) : outcome t :=
  employee_id ← required employee_id;
  first_name ← required first_name;
  last_name ← required last_name;
  phone_number ← required phone_number;
  salary ← required salary;
  company_name ← required company_name;
  Ok {| employee_id := employee_id; first_name := first_name;
        last_name := last_name; phone_number := phone_number;
        salary := salary; manager_id := manager_id;
        department_id := department_id; company_name := company_name |}.
End EmployeeResponse.

(** What the client of [POST /upload-employees/] gets: the body on
    success, or an [HTTPException] with its status and detail.  The detail
    of a 500 is the text of the exception caught.  [Unhandled] is an
    exception that leaves the handler. *)
Inductive UploadResult : Type :=
  | HTTP200 (body : UploadResponse)
  | HTTP400 (detail : string)
  | HTTP500 (detail : exn)
  | Unhandled (e : exn).

(** ** The handlers *)

(** [s.endswith(suffix)] *)
Definition endswith (s suffix : string) : bool :=
  let n := String.length s in
  let k := String.length suffix in
  (k <=? n)%nat && String.eqb (substring (n - k) k s) suffix.

(** An uploaded file: its name and what the pandas reader chosen by the
    extension makes of its content, [None] when the reader raises. *)
Record UploadFile : Type := {
  filename : string;
  read : option DataFrame
}.

Definition required_columns : list string :=
  ["EMPLOYEE_ID"; "FIRST_NAME"; "LAST_NAME"; "PHONE_NUMBER";
   "COMPANY_NAME"; "SALARY"; "MANAGER_ID"; "DEPARTMENT_ID"].

(** [name in names], for a set of names read back from the store: only a
    [str] is equal to one of them. *)
Definition name_in (name : cell) (names : gset (option string)) : bool :=
  match name with
  | CStr s => bool_decide (Some s ∈ names)
  | _ => false
  end.

(** [d[key]], for a dictionary keyed by names read back from the store. *)
Definition dict_getitem (d : gmap (option string) Z) (key : cell) : outcome Z :=
  match key with
  | CStr s =>
      match d !! Some s with
      | Some i => Ok i
      | None => Raise KeyError
      end
  | _ => Raise KeyError
  end.

Section Handlers.
Context {rt : Runtime}.

(** The [Employee(...)] call of the loop body (lines 108 to 117); the
    arguments are evaluated in order. *)
Definition new_employee (df : DataFrame)
    (company_name_to_id : gmap (option string) Z) (row : list cell)
  : outcome Employee.new :=
  employee_id ← row_getitem df row "EMPLOYEE_ID" ≫= py_int;
  first_name ← py_str <$> row_getitem df row "FIRST_NAME";
  last_name ← py_str <$> row_getitem df row "LAST_NAME";
  phone_number ← py_str <$> row_getitem df row "PHONE_NUMBER";
  salary ← row_getitem df row "SALARY" ≫= py_float;
  manager_id ← (c ← row_getitem df row "MANAGER_ID";
                if negb (isnull c) then Some <$> py_int c else Ok None);
  department_id ← (c ← row_getitem df row "DEPARTMENT_ID";
                   if negb (isnull c) then Some <$> py_int c else Ok None);
  company_id ← row_getitem df row "COMPANY_NAME"
                 ≫= dict_getitem company_name_to_id;
  Ok {| Employee.new_employee_id := employee_id;
        Employee.new_first_name := first_name;
        Employee.new_last_name := last_name;
        Employee.new_phone_number := phone_number;
        Employee.new_salary := salary;
        Employee.new_manager_id := manager_id;
        Employee.new_department_id := department_id;
        Employee.new_company_id := company_id |}.

(** The body of the [try] block of [upload_employees] (lines 94 to 124). *)
Definition persist (df : DataFrame) (company_names : list cell)
  : Sess UploadResponse :=
  existing_companies ← query_companies_in company_names;
  let existing_company_names : gset (option string) :=
    list_to_set (Company.company_name <$> existing_companies) in
  let new_companies :=
    filter (fun name => negb (name_in name existing_company_names))
           company_names in
  bulk_save_objects insert_company new_companies;;
  commit;;
  all_companies ← query_companies_in company_names;
  let company_name_to_id : gmap (option string) Z :=
    foldl (fun d c => <[Company.company_name c := Company.id c]> d)
          ∅ all_companies in
  employees_to_create ←
    lift (mapM (new_employee df company_name_to_id) (rows df));
  bulk_save_objects insert_employee employees_to_create;;
  commit;;
  mret {| message := "Data uploaded successfully.";
          companies_created := length new_companies;
          employees_created := length employees_to_create |}.

(** The first part of the [try] block, down to the first commit (lines
    95 to 99): the names it made companies of. *)
Definition commit_companies (company_names : list cell) : Sess (list cell) :=
  existing_companies ← query_companies_in company_names;
  let existing_company_names : gset (option string) :=
    list_to_set (Company.company_name <$> existing_companies) in
  let new_companies :=
    filter (fun name => negb (name_in name existing_company_names))
           company_names in
  bulk_save_objects insert_company new_companies;;
  commit;;
  mret new_companies.

(** [POST /upload-employees/] (lines 70 to 129).  The detail of a read
    error is cut to its fixed part. *)
Definition upload_employees (file : UploadFile) (db : DB)
  : UploadResult * DB :=
  if negb (endswith (filename file) ".xlsx"
           || endswith (filename file) ".csv")
  then (HTTP400 "File must be .xlsx or .csv", db)
  else
    match read file with
    | None => (HTTP400 "Error reading file", db)
    | Some df =>
        if negb (forallb (fun col => bool_decide (col ∈ columns df))
                         required_columns)
        then (HTTP400 "Missing required columns in file.", db)
        else
          match df_getitem df "COMPANY_NAME" with
          | Raise e => (Unhandled e, db)
          | Ok names =>
              let company_names := drop_duplicates names in
              let session := SessionLocal db in
              match persist df company_names session with
              | (Ok body, session) => (HTTP200 body, close session)
              | (Raise e, session) =>
                  (HTTP500 e, close (rollback session))
              end
          end
    end.

(** A sequence of uploads, one request after the other. *)
Definition run_uploads (files : list UploadFile) (db : DB) : DB :=
  foldl (fun db file => (upload_employees file db).2) db files.
End Handlers.

(** [GET /employees/] (lines 131 to 151): the entries, or the exception
    that leaves the handler, and the store as the request leaves it. *)
Definition get_employees (db : DB)
  : outcome (list EmployeeResponse.t) * DB :=
  let session := SessionLocal db in
  let '(result, session) :=
    (employees ← query_employees;
     mapM (M := Sess)
          (fun emp =>
             company ← query_company_by_id (Employee.company_id emp);
             lift (EmployeeResponse.make
                     (Employee.employee_id emp)
                     (Employee.first_name emp)
                     (Employee.last_name emp)
                     (Employee.phone_number emp)
                     (Employee.salary emp)
                     (Employee.manager_id emp)
                     (Employee.department_id emp)
                     (match company with
                      | Some company => Company.company_name company
                      | None => None
                      end)))
          employees) session in
  (result, close session).

(** ** Notions used to state the properties *)

(** The cell of a row under a column; missing when the frame has no such
    column. *)
Definition cell_of (df : DataFrame) (row : list cell) (col : string) : cell :=
  match row_getitem df row col with
  | Ok c => c
  | Raise _ => NaN
  end.

(** The list [company_names] of the handler. *)
Definition company_names (df : DataFrame) : list cell :=
  drop_duplicates ((fun row => cell_of df row "COMPANY_NAME") <$> rows df).

(** The file has an accepted extension, parses to [df], and [df] has the
    required columns. *)
Definition accepted (file : UploadFile) (df : DataFrame) : Prop :=
  endswith (filename file) ".xlsx" || endswith (filename file) ".csv" = true
  ∧ read file = Some df
  ∧ ∀ col, col ∈ required_columns → col ∈ columns df.



Definition text_of (c : cell) : option string :=
  match c with
  | CStr s => Some s
  | _ => None
  end.

(** The company names of a frame whose COMPANY_NAME cells are text. *)
Definition company_texts (df : DataFrame) : list string :=
  omap (fun row => text_of (cell_of df row "COMPANY_NAME")) (rows df).

Section WellFormed.
Context {rt : Runtime}.

(** A cell that [int] turns into an integer the store can hold. *)
Definition integer_cell (c : cell) : Prop :=
  ∃ z, py_int c = Ok z ∧ fits_int64 z = true.

Definition employee_number (df : DataFrame) (row : list cell) : Z :=
  match py_int (cell_of df row "EMPLOYEE_ID") with
  | Ok z => z
  | Raise _ => 0
  end.

Definition row_well_formed (df : DataFrame) (row : list cell) : Prop :=
  integer_cell (cell_of df row "EMPLOYEE_ID")
  ∧ (∃ f, py_float (cell_of df row "SALARY") = Ok f)
  ∧ (isnull (cell_of df row "MANAGER_ID") = true
     ∨ integer_cell (cell_of df row "MANAGER_ID"))
  ∧ (isnull (cell_of df row "DEPARTMENT_ID") = true
     ∨ integer_cell (cell_of df row "DEPARTMENT_ID"))
  ∧ (∃ name, cell_of df row "COMPANY_NAME" = CStr name).

(** A well-formed file: accepted, every cell of the type its column
    asks for, and no employee number twice. *)
Definition well_formed (file : UploadFile) (df : DataFrame) : Prop :=
  accepted file df
  ∧ Forall (row_well_formed df) (rows df)
  ∧ NoDup (employee_number df <$> rows df).

(** Neither a company name nor an employee number of the frame is in
    the store. *)
Definition unknown_to (db : DB) (df : DataFrame) : Prop :=
  (∀ name, name ∈ company_texts df →
           Some name ∉ Company.company_name <$> companies db)
  ∧ (∀ row, row ∈ rows df →
            Some (employee_number df row)
              ∉ Employee.employee_id <$> employees db).

(** The row the store keeps for a saved [Employee]. *)
Definition saved_employee (table : list Employee.t) (e : Employee.new)
  : Employee.t :=
  {| Employee.id := next_id (Employee.id <$> table);
     Employee.employee_id := Some (Employee.new_employee_id e);
     Employee.first_name := Some (Employee.new_first_name e);
     Employee.last_name := Some (Employee.new_last_name e);
     Employee.phone_number := Some (Employee.new_phone_number e);
     Employee.salary := sql_real (Employee.new_salary e);
     Employee.manager_id := Employee.new_manager_id e;
     Employee.department_id := Employee.new_department_id e;
     Employee.company_id := Some (Employee.new_company_id e) |}.

(** The table [companies] after the INSERTs of a bulk save, as a
    function of the table before. *)
Fixpoint save_companies (names : list cell) (table : list Company.t)
  : outcome (list Company.t) :=
  match names with
  | [] => Ok table
  | name :: names' =>
      text ← sql_text name;
      if bool_decide (is_Some text ∧ text ∈ Company.company_name <$> table)
      then Raise IntegrityError
      else save_companies names'
             (table ++ [ {| Company.id := next_id (Company.id <$> table);
                            Company.company_name := text |} ])
  end.

(** The same for [employees]. *)
Fixpoint save_employees (objs : list Employee.new) (table : list Employee.t)
  : outcome (list Employee.t) :=
  match objs with
  | [] => Ok table
  | e :: objs' =>
      _ ← sql_int (Employee.new_employee_id e);
      _ ← sql_opt_int (Employee.new_manager_id e);
      _ ← sql_opt_int (Employee.new_department_id e);
      if bool_decide (Some (Employee.new_employee_id e)
                        ∈ Employee.employee_id <$> table)
      then Raise IntegrityError
      else save_employees objs' (table ++ [saved_employee table e])
  end.

(** The rows a [company_names.in_] query selects from a table. *)
Definition companies_in (bound : list (option string))
    (table : list Company.t) : list Company.t :=
  filter (fun c => is_Some (Company.company_name c)
                   ∧ Company.company_name c ∈ bound) table.

Definition new_companies_of (names : list cell) (bound : list (option string))
    (table : list Company.t) : list cell :=
  filter (fun name =>
            negb (name_in name
                    (list_to_set (Company.company_name
                                    <$> companies_in bound table))))
         names.

Definition company_name_to_id_of (bound : list (option string))
    (table : list Company.t) : gmap (option string) Z :=
  foldl (fun d c => <[Company.company_name c := Company.id c]> d)
        ∅ (companies_in bound table).
End WellFormed.

(** ** The handlers as functions of the store

    [persist_result] gives, without a session, the outcome of the [try]
    block and the database as committed when the block is left;
    [listing] gives the answer of [get_employees].  Lemmas [persist_run]
    and [get_employees_run] show that the handlers compute them. *)

Section PersistResult.
Context {rt : Runtime}.

Definition persist_result (df : DataFrame) (names : list cell) (db : DB)
  : outcome UploadResponse * DB :=
  match mapM sql_text names with
  | Raise e => (Raise e, db)
  | Ok bound =>
      let new_companies := new_companies_of names bound (companies db) in
      match save_companies new_companies (companies db) with
      | Raise e => (Raise e, db)
      | Ok table1 =>
          let db1 := {| companies := table1; employees := employees db |} in
          match mapM (new_employee df (company_name_to_id_of bound table1))
                     (rows df) with
          | Raise e => (Raise e, db1)
          | Ok objs =>
              match save_employees objs (employees db) with
              | Raise e => (Raise e, db1)
              | Ok table2 =>
                  (Ok {| message := "Data uploaded successfully.";
                         companies_created := length new_companies;
                         employees_created := length objs |},
                   {| companies := table1; employees := table2 |})
              end
          end
      end
  end.

(** A nullable integer column against its cell: absent for a missing
    cell, the cell coerced by [int] otherwise. *)
Definition absent_or_int (c : cell) (v : option Z) : Prop :=
  if isnull c then v = None else ∃ z, py_int c = Ok z ∧ v = Some z.
End PersistResult.

(** The response and the store for an outcome of the [try] block. *)
Definition response_of (r : outcome UploadResponse * DB) : UploadResult * DB :=
  (match r.1 with
   | Ok body => HTTP200 body
   | Raise e => HTTP500 e
   end, r.2).

(** The row a [Company.id == i] query returns first. *)
Definition find_company (table : list Company.t) (i : option Z)
  : option Company.t :=
  match i with
  | Some i => find (fun c => bool_decide (Company.id c = i)) table
  | None => None
  end.

(** The entry of one employee in the listing. *)
Definition entry_of (table : list Company.t) (emp : Employee.t)
  : outcome EmployeeResponse.t :=
  EmployeeResponse.make
    (Employee.employee_id emp) (Employee.first_name emp)
    (Employee.last_name emp) (Employee.phone_number emp)
    (Employee.salary emp) (Employee.manager_id emp)
    (Employee.department_id emp)
    (match find_company table (Employee.company_id emp) with
     | Some company => Company.company_name company
     | None => None
     end).

Definition listing (db : DB) : outcome (list EmployeeResponse.t) :=
  mapM (entry_of (companies db)) (employees db).

(** An object every integer of which the store can hold. *)
Definition insertable (e : Employee.new) : Prop :=
  sql_int (Employee.new_employee_id e) = Ok (Employee.new_employee_id e)
  ∧ sql_opt_int (Employee.new_manager_id e) = Ok (Employee.new_manager_id e)
  ∧ sql_opt_int (Employee.new_department_id e)
    = Ok (Employee.new_department_id e).

(** ** Sample runtime, files and stores

    [literal_runtime] converts the texts that are plain decimal integers
    and writes the floats that are integers; other texts are not numbers
    to it, and other floats have no text.  The files below have no text
    in a number column and no float in a text column, so that handling
    them consults none of its conversions. *)

Definition decimal_literal (s : string) : option Z :=
  if String.eqb s "" || String.eqb s "-" then None
  else Z.of_int <$> NilZero.int_of_string s.

Definition integral_text (f : pyfloat) : string :=
  match float_integer f with
  | Some z => String.append (pretty z) ".0"
  | None => ""
  end.

Definition literal_runtime : Runtime := {|
  int_of_str := decimal_literal;
  float_of_str := fun s =>
    (fun z => binary_normalize prec emax z 0 false) <$> decimal_literal s;
  str_of_float := integral_text;
  text_of_float := integral_text
|}.

(** The float [m * 2 ^ e], rounded to binary64. *)
Definition dyadic (m e : Z) : pyfloat := binary_normalize prec emax m e false.

Definition empty_db : DB := {| companies := []; employees := [] |}.

(** One record of a file with the required columns, in their order. *)
Definition record (number : cell) (first last phone : string)
    (company salary manager department : cell) : list cell :=
  [number; CStr first; CStr last; CStr phone; company; salary; manager;
   department].

(** Three employees of two companies.  One manager cell and one
    department cell are empty, so that the other cells of these columns
    are floats, as the salaries are. *)
Definition staff_frame : DataFrame :=
  {| columns := required_columns;
     rows := [ record (CInt 1) "Ann" "Lee" "555-0101" (CStr "Acme")
                 (CFloat (dyadic 10001 (-1))) NaN (CFloat (dyadic 10 0));
               record (CInt 2) "Bob" "Ray" "555-0102" (CStr "Initech")
                 (CFloat (dyadic 4200 0)) (CFloat (dyadic 1 0)) NaN;
               record (CInt 3) "Cy" "Poe" "555-0103" (CStr "Acme")
                 (CFloat (dyadic 4100 0)) (CFloat (dyadic 1 0))
                 (CFloat (dyadic 10 0)) ] |}.

Definition staff_file : UploadFile :=
  {| filename := "staff.csv"; read := Some staff_frame |}.

(** One record whose EMPLOYEE_ID cell is empty. *)
Definition blank_number_frame : DataFrame :=
  {| columns := required_columns;
     rows := [ record NaN "Ann" "Lee" "555-0101" (CStr "Acme")
                 (CInt 5000) NaN NaN ] |}.

Definition blank_number_file : UploadFile :=
  {| filename := "staff.csv"; read := Some blank_number_frame |}.

(** One record whose COMPANY_NAME cell is empty. *)
Definition blank_company_file : UploadFile :=
  {| filename := "staff.csv";
     read := Some {| columns := required_columns;
                     rows := [ record (CInt 1) "Ann" "Lee" "555-0101" NaN
                                 (CInt 5000) NaN NaN ] |} |}.

(** One record whose SALARY cell is empty. *)
Definition blank_salary_file : UploadFile :=
  {| filename := "staff.csv";
     read := Some {| columns := required_columns;
                     rows := [ record (CInt 1) "Ann" "Lee" "555-0101"
                                 (CStr "Acme") NaN NaN NaN ] |} |}.

(** A spreadsheet without the SALARY column. *)
Definition no_salary_frame : DataFrame :=
  {| columns := ["EMPLOYEE_ID"; "FIRST_NAME"; "LAST_NAME"; "PHONE_NUMBER";
                 "COMPANY_NAME"; "MANAGER_ID"; "DEPARTMENT_ID"];
     rows := [ [CInt 1; CStr "Ann"; CStr "Lee"; CStr "555-0101"; CStr "Acme";
                NaN; NaN] ] |}.

Definition no_salary_file : UploadFile :=
  {| filename := "staff.xlsx"; read := Some no_salary_frame |}.

(** An employee whose company id is the id of no company. *)
Definition orphan : Employee.t :=
  {| Employee.id := 1; Employee.employee_id := Some 1;
     Employee.first_name := Some "Ann"; Employee.last_name := Some "Lee";
     Employee.phone_number := Some "555-0101";
     Employee.salary := Some (S754_zero false);
     Employee.manager_id := None; Employee.department_id := None;
     Employee.company_id := Some 7 |}.

Definition orphan_db : DB := {| companies := []; employees := [orphan] |}.

Definition acme : Company.t :=
  {| Company.id := 1; Company.company_name := Some "Acme" |}.

(** ** Further notions *)

(** No two rows of a table of employees carry the same employee
    number. *)
Definition numbers_unique (table : list Employee.t) : Prop :=
  ∀ (i j : nat) (e1 e2 : Employee.t) (number : Z),
    table !! i = Some e1 →
    table !! j = Some e2 →
    Employee.employee_id e1 = Some number →
    Employee.employee_id e2 = Some number →
    i = j.

Definition employee_numbers_unique (db : DB) : Prop :=
  numbers_unique (employees db).

(** The primary keys of both tables are keys. *)
Definition ids_distinct (db : DB) : Prop :=
  NoDup (Company.id <$> companies db) ∧ NoDup (Employee.id <$> employees db).

(** Every employee refers to a company of the store. *)
Definition references_resolve (db : DB) : Prop :=
  ∀ e, e ∈ employees db →
       ∃ c, c ∈ companies db ∧ Employee.company_id e = Some (Company.id c).

(** An employee the listing has an entry for: no required column is
    NULL and its company is found and has a name. *)
Definition complete (table : list Company.t) (emp : Employee.t) : Prop :=
  is_Some (Employee.employee_id emp)
  ∧ is_Some (Employee.first_name emp)
  ∧ is_Some (Employee.last_name emp)
  ∧ is_Some (Employee.phone_number emp)
  ∧ is_Some (Employee.salary emp)
  ∧ ∃ c, find_company table (Employee.company_id emp) = Some c
         ∧ is_Some (Company.company_name c).

(** An entry of the listing against the row it is made from. *)
Definition entry_mirrors (table : list Company.t) (emp : Employee.t)
    (r : EmployeeResponse.t) : Prop :=
  Employee.employee_id emp = Some (EmployeeResponse.employee_id r)
  ∧ Employee.first_name emp = Some (EmployeeResponse.first_name r)
  ∧ Employee.last_name emp = Some (EmployeeResponse.last_name r)
  ∧ Employee.phone_number emp = Some (EmployeeResponse.phone_number r)
  ∧ Employee.salary emp = Some (EmployeeResponse.salary r)
  ∧ EmployeeResponse.manager_id r = Employee.manager_id emp
  ∧ EmployeeResponse.department_id r = Employee.department_id emp
  ∧ ∃ c, c ∈ table
         ∧ Employee.company_id emp = Some (Company.id c)
         ∧ Company.company_name c = Some (EmployeeResponse.company_name r).

Section Stored.
Context {rt : Runtime}.

(** A row of [employees] against the record it was made from: every
    column but the two nullable ones and the company. *)
Definition stored_as (df : DataFrame) (row : list cell) (e : Employee.t)
  : Prop :=
  (∃ z, py_int (cell_of df row "EMPLOYEE_ID") = Ok z
        ∧ Employee.employee_id e = Some z)
  ∧ Employee.first_name e = Some (py_str (cell_of df row "FIRST_NAME"))
  ∧ Employee.last_name e = Some (py_str (cell_of df row "LAST_NAME"))
  ∧ Employee.phone_number e
    = Some (py_str (cell_of df row "PHONE_NUMBER"))
  ∧ ∃ f, py_float (cell_of df row "SALARY") = Ok f
         ∧ Employee.salary e = sql_real f.
End Stored.

(** A file with the required columns and no record. *)
Definition header_only_file : UploadFile :=
  {| filename := "staff.csv";
     read := Some {| columns := required_columns; rows := [] |} |}.

(** Two more employees, of a company of the staff file and of a new one. *)
Definition hires_frame : DataFrame :=
  {| columns := required_columns;
     rows := [ record (CInt 4) "Di" "Orr" "555-0104" (CStr "Acme")
                 (CInt 3900) (CInt 1) (CInt 10);
               record (CInt 5) "Ed" "Kim" "555-0105" (CStr "Globex")
                 (CInt 3800) (CInt 1) (CInt 20) ] |}.

Definition hires_file : UploadFile :=
  {| filename := "hires.xlsx"; read := Some hires_frame |}.

(** A file that is not a table. *)
Definition notes_file : UploadFile :=
  {| filename := "notes.txt"; read := None |}.

(** A store as uploads make it: company ids are distinct, and every
    employee has its number, its names, its phone number and a company
    that is in the store and has a name. *)
Definition well_linked (db : DB) : Prop :=
  NoDup (Company.id <$> companies db)
  ∧ ∀ e, e ∈ employees db →
         is_Some (Employee.employee_id e)
         ∧ is_Some (Employee.first_name e)
         ∧ is_Some (Employee.last_name e)
         ∧ is_Some (Employee.phone_number e)
         ∧ ∃ c, c ∈ companies db
                ∧ Employee.company_id e = Some (Company.id c)
                ∧ is_Some (Company.company_name c).

(** The store after the staff file was uploaded to the empty one. *)
Definition staff_db : DB :=
  Eval vm_compute in
    (upload_employees (rt := literal_runtime) staff_file empty_db).2.

(** * Properties *)

Ltac sess :=
  unfold mbind, mret, Sess_bind, Sess_ret, lift, gets, raise, commit,
    set_companies, set_employees, SessionLocal, close, rollback in *;
  simpl in *.

(** ** The handlers compute [persist_result] and [listing] *)

Section Binding.

Lemma sql_int_inv z z' : sql_int z = Ok z' → z' = z.
Proof. unfold sql_int. destruct (fits_int64 z); congruence. Qed.

Lemma sql_opt_int_inv v v' : sql_opt_int v = Ok v' → v' = v.
Proof.
  destruct v as [z|]; simpl; [|congruence].
  destruct (sql_int z) as [z'|] eqn:Hz; simpl; [|done].
  apply sql_int_inv in Hz as ->. congruence.
Qed.

Lemma sql_int_Ok z : fits_int64 z = true → sql_int z = Ok z.
Proof. unfold sql_int. by intros ->. Qed.
End Binding.

Section Runs.
Context {rt : Runtime}.

Lemma query_companies_in_run names s :
  query_companies_in names s =
  match mapM sql_text names with
  | Ok bound => (Ok (companies_in bound (companies (txn s))), s)
  | Raise e => (Raise e, s)
  end.
Proof.
  unfold query_companies_in, companies_in. sess.
  destruct (mapM sql_text names); reflexivity.
Qed.

Lemma bulk_save_companies_run names : ∀ s,
  match save_companies names (companies (txn s)) with
  | Ok table =>
      bulk_save_objects insert_company names s =
      (Ok tt, {| disk := disk s;
                 txn := {| companies := table;
                           employees := employees (txn s) |} |})
  | Raise e =>
      ∃ s', bulk_save_objects insert_company names s = (Raise e, s')
            ∧ disk s' = disk s
  end.
Proof.
  induction names as [|name names IH]; intros [d [cs es]]; simpl.
  - reflexivity.
  - unfold insert_company. sess.
    destruct (sql_text name) as [text|e]; simpl; [|eauto].
    case_bool_decide; simpl; [eauto|].
    match goal with |- context [save_companies names ?t] =>
      specialize (IH {| disk := d; txn := {| companies := t; employees := es |} |})
    end.
    simpl in IH. exact IH.
Qed.

Lemma bulk_save_employees_run objs : ∀ s,
  match save_employees objs (employees (txn s)) with
  | Ok table =>
      bulk_save_objects insert_employee objs s =
      (Ok tt, {| disk := disk s;
                 txn := {| companies := companies (txn s);
                           employees := table |} |})
  | Raise e =>
      ∃ s', bulk_save_objects insert_employee objs s = (Raise e, s')
            ∧ disk s' = disk s
  end.
Proof.
  induction objs as [|e objs IH]; intros [d [cs es]]; simpl.
  - reflexivity.
  - unfold insert_employee. sess.
    destruct (sql_int (Employee.new_employee_id e)) as [z|x] eqn:Ez; simpl; [|eauto].
    destruct (sql_opt_int (Employee.new_manager_id e)) as [m|x] eqn:Em; simpl; [|eauto].
    destruct (sql_opt_int (Employee.new_department_id e)) as [dp|x] eqn:Ed; simpl; [|eauto].
    apply sql_int_inv in Ez as ->.
    apply sql_opt_int_inv in Em as ->.
    apply sql_opt_int_inv in Ed as ->.
    case_bool_decide; simpl; [eauto|].
    match goal with |- context [save_employees objs ?t] =>
      specialize (IH {| disk := d; txn := {| companies := cs; employees := t |} |})
    end.
    simpl in IH. exact IH.
Qed.

Lemma persist_run df names db :
  ∃ s', persist df names (SessionLocal db)
        = ((persist_result df names db).1, s')
        ∧ disk s' = (persist_result df names db).2.
Proof.
  unfold persist, persist_result.
  unfold mbind at 1, Sess_bind at 1. rewrite query_companies_in_run.
  destruct (mapM sql_text names) as [bound|e] eqn:Eb; [|eauto].
  simpl.
  fold (companies_in bound (companies db)).
  fold (new_companies_of names bound (companies db)).
  set (new := new_companies_of names bound (companies db)).
  unfold mbind at 1, Sess_bind at 1.
  pose proof (bulk_save_companies_run new (SessionLocal db)) as Hc.
  simpl in Hc.
  destruct (save_companies new (companies db)) as [table1|e] eqn:Ec.
  2:{ destruct Hc as (s' & -> & Hd). eauto. }
  rewrite Hc.
  unfold mbind at 1, Sess_bind at 1. unfold commit at 1. simpl.
  unfold mbind at 1, Sess_bind at 1. rewrite query_companies_in_run, Eb.
  simpl. fold (company_name_to_id_of bound table1).
  unfold mbind at 1, Sess_bind at 1. unfold lift at 1.
  destruct (mapM (new_employee df _) (rows df)) as [objs|e] eqn:Eo; [|eauto].
  unfold mbind at 1, Sess_bind at 1.
  match goal with |- context [bulk_save_objects insert_employee objs ?s] =>
    pose proof (bulk_save_employees_run objs s) as He end.
  simpl in He.
  destruct (save_employees objs (employees db)) as [table2|e] eqn:Ee.
  2:{ destruct He as (s' & -> & Hd). eauto. }
  rewrite He. sess. eauto.
Qed.
End Runs.
Section Frames.
Lemma index_of_elem col cols :
  col ∈ cols → ∃ i, index_of col cols = Some i.
Proof.
  induction cols as [|c cols IH]; intros Hin.
  - by apply elem_of_nil in Hin.
  - simpl. destruct (String.eqb_spec c col) as [->|Hne]; [eauto|].
    apply elem_of_cons in Hin as [->|Hin]; [done|].
    destruct (IH Hin) as [i ->]. simpl. eauto.
Qed.

Lemma index_of_None col cols :
  col ∉ cols → index_of col cols = None.
Proof.
  induction cols as [|c cols IH]; intros Hin; [done|].
  simpl. apply not_elem_of_cons in Hin as [Hne Hin].
  destruct (String.eqb_spec c col) as [->|_]; [done|].
  by rewrite IH.
Qed.

Lemma row_getitem_elem df row col :
  col ∈ columns df → row_getitem df row col = Ok (cell_of df row col).
Proof.
  intros Hin. unfold cell_of, row_getitem.
  by destruct (index_of_elem _ _ Hin) as [i ->].
Qed.

Lemma df_getitem_elem df col :
  col ∈ columns df →
  df_getitem df col = Ok ((fun row => cell_of df row col) <$> rows df).
Proof.
  intros Hin. unfold df_getitem, cell_of, row_getitem.
  by destruct (index_of_elem _ _ Hin) as [i ->].
Qed.

Lemma required_columns_check df :
  forallb (fun col => bool_decide (col ∈ columns df)) required_columns = true
  ↔ ∀ col, col ∈ required_columns → col ∈ columns df.
Proof.
  rewrite forallb_forall. split; intros Hall col Hin.
  - apply list_elem_of_In, Hall in Hin. by apply bool_decide_eq_true in Hin.
  - apply bool_decide_eq_true, Hall. by apply list_elem_of_In.
Qed.
End Frames.

Section Upload.
Context {rt : Runtime}.

Lemma upload_employees_accepted file df db :
  accepted file df →
  upload_employees file db
  = response_of (persist_result df (company_names df) db).
Proof.
  intros (Hext & Hread & Hcols). unfold upload_employees.
  apply required_columns_check in Hcols as Hcheck.
  rewrite Hext. cbn [negb]. rewrite Hread, Hcheck. cbn [negb].
  rewrite df_getitem_elem by (apply Hcols; set_solver).
  fold (company_names df).
  destruct (persist_run df (company_names df) db) as (s' & -> & Hd).
  unfold response_of, close, rollback. simpl.
  destruct (persist_result df (company_names df) db) as [[body|e] db'];
    simpl in *; by rewrite Hd.
Qed.

Lemma upload_employees_cases file db :
  (∃ detail, upload_employees file db = (HTTP400 detail, db))
  ∨ ∃ df, accepted file df.
Proof.
  unfold upload_employees.
  destruct (endswith (filename file) ".xlsx" || endswith (filename file) ".csv")
    eqn:Hext; cbn [negb]; [|eauto].
  destruct (read file) as [df|] eqn:Hread; [|eauto].
  destruct (forallb (fun col => bool_decide (col ∈ columns df))
                    required_columns) eqn:Hcheck; cbn [negb]; [|eauto].
  right. exists df. split_and!; [done..|].
  by apply required_columns_check.
Qed.
End Upload.

Section Listing.
Lemma mapM_lift_run {A B} (f : A → Sess B) (g : A → outcome B) l s :
  (∀ a, f a s = (g a, s)) →
  mapM (M := Sess) f l s = (mapM g l, s).
Proof.
  intros Hf. induction l as [|a l IH]; [done|].
  simpl. unfold mbind at 1, Sess_bind at 1. rewrite Hf.
  destruct (g a) as [b|e]; [|done]. simpl.
  unfold mbind at 1, Sess_bind at 1. rewrite IH.
  by destruct (mapM g l).
Qed.

Lemma get_employees_run db : get_employees db = (listing db, db).
Proof.
  unfold get_employees, listing, query_employees.
  unfold mbind at 1, Sess_bind at 1. unfold gets at 1. simpl.
  rewrite (mapM_lift_run _ (entry_of (companies db))); [done|].
  intros emp. unfold query_company_by_id, entry_of, find_company.
  by sess.
Qed.
End Listing.
Section Tables.
Context {rt : Runtime}.


Lemma save_companies_Ok names : ∀ table table',
  save_companies names table = Ok table' →
  ∃ added, table' = table ++ added ∧ length added = length names.
Proof.
  induction names as [|name names IH]; intros table table' Hs; simpl in Hs.
  - exists []. split; [|done]. rewrite app_nil_r. congruence.
  - destruct (sql_text name) as [text|e]; simpl in Hs; [|done].
    case_bool_decide; [done|].
    apply IH in Hs as (added & -> & Hlen).
    eexists (_ :: added). rewrite <- app_assoc. simpl. split; [done|].
    by rewrite Hlen.
Qed.


Lemma save_employees_Ok objs : ∀ table table',
  save_employees objs table = Ok table' →
  ∃ added, table' = table ++ added
           ∧ Forall2 (fun e r => ∃ t, r = saved_employee t e) objs added.
Proof.
  induction objs as [|e objs IH]; intros table table' Hs;
    cbn [save_employees] in Hs.
  - exists []. split; [|constructor]. rewrite app_nil_r. congruence.
  - destruct (sql_int (Employee.new_employee_id e)); [|done].
    destruct (sql_opt_int (Employee.new_manager_id e)); [|done].
    destruct (sql_opt_int (Employee.new_department_id e)); [|done].
    cbn [mbind outcome_bind] in Hs.
    case_bool_decide; [done|].
    apply IH in Hs as (added & -> & Hall).
    eexists (_ :: added). rewrite <- app_assoc. simpl. split; [done|].
    constructor; eauto.
Qed.

(** What [persist_result] leaves in the store, whatever the outcome. *)
Lemma persist_result_store df names db :
  ∃ added,
    companies (persist_result df names db).2 = companies db ++ added
    ∧ ((persist_result df names db).2
         = {| companies := companies db ++ added;
              employees := employees db |}
       ∨ ∃ body, (persist_result df names db).1 = Ok body).
Proof.
  unfold persist_result.
  destruct (mapM sql_text names) as [bound|e]; simpl.
  2:{ exists []. rewrite app_nil_r. split; [done|]. left. by destruct db. }
  destruct (save_companies _ (companies db)) as [table1|e] eqn:Hc; simpl.
  2:{ exists []. rewrite app_nil_r. split; [done|]. left. by destruct db. }
  apply save_companies_Ok in Hc as (added & -> & _).
  exists added.
  destruct (mapM _ (rows df)) as [objs|e]; simpl; [|eauto].
  destruct (save_employees objs (employees db)) as [table2|e]; simpl; eauto.
Qed.

End Tables.

Section Transactions.
Context {rt : Runtime}.

Lemma save_companies_rows names : ∀ table table',
  save_companies names table = Ok table' →
  ∃ added,
    table' = table ++ added
    ∧ Forall2 (fun name c => sql_text name = Ok (Company.company_name c))
        names added.
Proof.
  induction names as [|name names IH]; intros table table' Hs;
    cbn [save_companies] in Hs.
  - exists []. split; [|constructor]. rewrite app_nil_r. congruence.
  - destruct (sql_text name) as [text|e] eqn:Ht; [|done].
    cbn [mbind outcome_bind] in Hs.
    case_bool_decide; [done|].
    apply IH in Hs as (added & -> & Hall).
    eexists (_ :: added). rewrite <- app_assoc. split; [done|].
    by constructor.
Qed.

(** The [try] block is [commit_companies] followed by the rest of it
    (lines 101 to 124). *)
Lemma persist_from_commit df names s :
  persist df names s
  = (new_companies ← commit_companies names;
     all_companies ← query_companies_in names;
     let company_name_to_id : gmap (option string) Z :=
       foldl (fun d c => <[Company.company_name c := Company.id c]> d)
             ∅ all_companies in
     employees_to_create ←
       lift (mapM (new_employee df company_name_to_id) (rows df));
     bulk_save_objects insert_employee employees_to_create;;
     commit;;
     mret {| message := "Data uploaded successfully.";
             companies_created := length new_companies;
             employees_created := length employees_to_create |}) s.
Proof.
  unfold persist, commit_companies.
  unfold mbind, Sess_bind.
  destruct (query_companies_in names s) as [[existing|e] s1]; [|done].
  cbv zeta.
  destruct (bulk_save_objects insert_company _ s1) as [[[]|e] s2]; [|done].
  reflexivity.
Qed.

(** What [commit_companies] does, as a function of the store. *)
Lemma commit_companies_run names db :
  match mapM sql_text names with
  | Raise e =>
      commit_companies names (SessionLocal db) = (Raise e, SessionLocal db)
  | Ok bound =>
      match save_companies (new_companies_of names bound (companies db))
              (companies db) with
      | Raise e =>
          ∃ s, commit_companies names (SessionLocal db) = (Raise e, s)
      | Ok table1 =>
          commit_companies names (SessionLocal db)
          = (Ok (new_companies_of names bound (companies db)),
             SessionLocal {| companies := table1;
                             employees := employees db |})
      end
  end.
Proof.
  pose proof (query_companies_in_run names (SessionLocal db)) as Hq.
  assert (∀ bound,
            filter (fun name =>
                      negb (name_in name
                              (list_to_set
                                 (Company.company_name
                                    <$> companies_in bound (companies db)))))
                   names
            = new_companies_of names bound (companies db)) as Hnew by done.
  destruct (mapM sql_text names) as [bound|e].
  - pose proof (bulk_save_companies_run
                  (new_companies_of names bound (companies db))
                  (SessionLocal db)) as Hc.
    simpl in Hq, Hc.
    destruct (save_companies _ (companies db)) as [table1|e].
    + unfold commit_companies.
      unfold mbind at 1, Sess_bind at 1. rewrite Hq, Hnew.
      unfold mbind at 1, Sess_bind at 1. rewrite Hc. reflexivity.
    + destruct Hc as (s & Hs & _). exists s.
      unfold commit_companies.
      unfold mbind at 1, Sess_bind at 1. rewrite Hq, Hnew.
      unfold mbind at 1, Sess_bind at 1. by rewrite Hs.
  - unfold commit_companies.
    unfold mbind at 1, Sess_bind at 1. by rewrite Hq.
Qed.

(** C1 (amended).  When the [try] block of an upload raises, the handler
    answers 500 with that exception and no Employee row of the request
    is kept.  When the exception comes before the first commit, the store
    is left as it was.  When it comes after, the companies the request
    made stay: the table of companies is the former one followed by one
    row for each of them, with its name, and the table of employees is
    the former one. *)
Theorem upload_error_keeps_committed_companies file df db e s :
  accepted file df →
  persist df (company_names df) (SessionLocal db) = (Raise e, s) →
  match commit_companies (company_names df) (SessionLocal db) with
  | (Raise e', _) =>
      e' = e ∧ upload_employees file db = (HTTP500 e, db)
  | (Ok new_companies, _) =>
      ∃ added,
        Forall2 (fun name c => sql_text name = Ok (Company.company_name c))
          new_companies added
        ∧ upload_employees file db
          = (HTTP500 e, {| companies := companies db ++ added;
                           employees := employees db |})
  end.
Proof.
  intros Hacc Hp.
  rewrite (upload_employees_accepted _ _ _ Hacc).
  destruct (persist_run df (company_names df) db) as (s' & Hrun & _).
  rewrite Hp in Hrun. injection Hrun as He _.
  pose proof (commit_companies_run (company_names df) db) as Hc.
  unfold response_of. revert He. unfold persist_result.
  destruct (mapM sql_text (company_names df)) as [bound|e0].
  2:{ rewrite Hc. simpl. intros [= ->]. split; [done|]. by destruct db. }
  destruct (save_companies _ (companies db)) as [table1|e0] eqn:Hs.
  2:{ destruct Hc as [s0 ->]. simpl. intros [= ->]. split; [done|].
      by destruct db. }
  rewrite Hc. cbv zeta.
  apply save_companies_rows in Hs as (added & -> & Hall).
  exists added. split; [done|].
  destruct (mapM _ (rows df)) as [objs|e0]; simpl in *.
  - destruct (save_employees objs (employees db)) as [table2|e0];
      simpl in *; [done|]. by injection He as ->.
  - by injection He as ->.
Qed.


(** C8.  A file that parses and lacks one of the required columns is
    answered 400 and the store is left as it was. *)
Theorem missing_column_rejected file df db col :
  endswith (filename file) ".xlsx" || endswith (filename file) ".csv" = true →
  read file = Some df →
  col ∈ required_columns →
  col ∉ columns df →
  upload_employees file db
  = (HTTP400 "Missing required columns in file.", db).
Proof.
  intros Hext Hread Hreq Hmiss. unfold upload_employees.
  rewrite Hext. cbn [negb]. rewrite Hread.
  destruct (forallb (fun col => bool_decide (col ∈ columns df))
                    required_columns) eqn:Hcheck; [|done].
  destruct Hmiss. by apply (proj1 (required_columns_check df) Hcheck).
Qed.

(** C10.  The listing leaves both tables as they were. *)
Theorem get_employees_read_only db : (get_employees db).2 = db.
Proof. by rewrite get_employees_run. Qed.
End Transactions.

Section MapM.
Context {A B : Type} (f : A → outcome B).

Lemma mapM_Ok_Forall2 l bs :
  mapM f l = Ok bs → Forall2 (fun a b => f a = Ok b) l bs.
Proof.
  revert bs. induction l as [|a l IH]; intros bs Hm; simpl in Hm.
  - injection Hm as <-. constructor.
  - destruct (f a) as [b|e] eqn:Hb; simpl in Hm; [|done].
    destruct (mapM f l) as [bs'|e]; simpl in Hm; [|done].
    injection Hm as <-. constructor; auto.
Qed.

Lemma mapM_Ok_exists (P : A → B → Prop) l :
  (∀ a, a ∈ l → ∃ b, f a = Ok b ∧ P a b) →
  ∃ bs, mapM f l = Ok bs ∧ Forall2 P l bs.
Proof.
  induction l as [|a l IH]; intros Hf.
  - exists []. split; [done|constructor].
  - destruct (Hf a) as (b & Hb & HP); [by left|].
    destruct IH as (bs & Hbs & HF); [intros; apply Hf; by right|].
    exists (b :: bs). simpl. rewrite Hb. simpl. rewrite Hbs. simpl.
    split; [done|]. by constructor.
Qed.

Lemma mapM_Raise_elem (x : exn) l a :
  (∀ a e, f a = Raise e → e = x) →
  a ∈ l → f a = Raise x → mapM f l = Raise x.
Proof.
  intros Hall Hin Ha. induction l as [|a' l IH].
  - by apply elem_of_nil in Hin.
  - simpl. destruct (f a') as [b|e] eqn:Ha'; simpl.
    + apply elem_of_cons in Hin as [->|Hin]; [congruence|].
      by rewrite IH.
    + f_equal. eauto.
Qed.
End MapM.

Section ListingFailure.
Lemma entry_of_Raise table emp e :
  entry_of table emp = Raise e → e = ValidationError.
Proof.
  unfold entry_of, EmployeeResponse.make, EmployeeResponse.required.
  repeat (match goal with |- context [match ?o with _ => _ end] =>
            destruct o; simpl; try congruence end).
Qed.

Lemma entry_of_no_company table emp :
  find_company table (Employee.company_id emp) = None →
  entry_of table emp = Raise ValidationError.
Proof.
  intros Hf. unfold entry_of. rewrite Hf.
  unfold EmployeeResponse.make, EmployeeResponse.required.
  repeat (match goal with |- context [match ?o with _ => _ end] =>
            destruct o; simpl; try congruence end).
Qed.

Lemma find_company_None table i :
  (∀ c, c ∈ table → Some (Company.id c) ≠ i) →
  find_company table i = None.
Proof.
  intros Hall. destruct i as [i|]; [|done]. simpl.
  induction table as [|c table IH]; [done|]. simpl.
  case_bool_decide as Hc.
  - destruct (Hall c); [by left|]. by rewrite Hc.
  - apply IH. intros c' Hc'. apply Hall. by right.
Qed.

(** C4 (what the code does).  When the company id of some employee is
    the id of no company, the listing does not answer: building the
    entry with a null [company_name] raises a validation error, which
    leaves the handler. *)
Theorem unresolved_company_fails_listing db emp :
  emp ∈ employees db →
  (∀ c, c ∈ companies db → Some (Company.id c) ≠ Employee.company_id emp) →
  (get_employees db).1 = Raise ValidationError.
Proof.
  intros Hin Hdangling. rewrite get_employees_run. simpl. unfold listing.
  eapply mapM_Raise_elem; [apply entry_of_Raise|exact Hin|].
  by apply entry_of_no_company, find_company_None.
Qed.
End ListingFailure.

Section Rows.
Context {rt : Runtime}.

Lemma new_employee_cells df dict row :
  (∀ col, col ∈ required_columns → col ∈ columns df) →
  new_employee df dict row =
  (employee_id ← py_int (cell_of df row "EMPLOYEE_ID");
   salary ← py_float (cell_of df row "SALARY");
   manager_id ← (if negb (isnull (cell_of df row "MANAGER_ID"))
                 then Some <$> py_int (cell_of df row "MANAGER_ID")
                 else Ok None);
   department_id ← (if negb (isnull (cell_of df row "DEPARTMENT_ID"))
                    then Some <$> py_int (cell_of df row "DEPARTMENT_ID")
                    else Ok None);
   company_id ← dict_getitem dict (cell_of df row "COMPANY_NAME");
   Ok {| Employee.new_employee_id := employee_id;
         Employee.new_first_name := py_str (cell_of df row "FIRST_NAME");
         Employee.new_last_name := py_str (cell_of df row "LAST_NAME");
         Employee.new_phone_number :=
           py_str (cell_of df row "PHONE_NUMBER");
         Employee.new_salary := salary;
         Employee.new_manager_id := manager_id;
         Employee.new_department_id := department_id;
         Employee.new_company_id := company_id |}).
Proof.
  intros Hcols. unfold new_employee.
  rewrite !row_getitem_elem by (apply Hcols; set_solver).
  simpl. reflexivity.
Qed.

Lemma new_employee_Ok df dict row e :
  (∀ col, col ∈ required_columns → col ∈ columns df) →
  new_employee df dict row = Ok e →
  py_int (cell_of df row "EMPLOYEE_ID") = Ok (Employee.new_employee_id e)
  ∧ absent_or_int (cell_of df row "MANAGER_ID") (Employee.new_manager_id e)
  ∧ absent_or_int (cell_of df row "DEPARTMENT_ID")
      (Employee.new_department_id e)
  ∧ py_float (cell_of df row "SALARY") = Ok (Employee.new_salary e)
  ∧ dict_getitem dict (cell_of df row "COMPANY_NAME")
    = Ok (Employee.new_company_id e).
Proof.
  intros Hcols. rewrite new_employee_cells by done.
  unfold absent_or_int.
  destruct (py_int (cell_of df row "EMPLOYEE_ID")) as [z|]; [|done].
  destruct (py_float _) as [f|]; [|done].
  cbn [mbind outcome_bind].
  destruct (isnull (cell_of df row "MANAGER_ID")); cbn [negb];
    [|destruct (py_int (cell_of df row "MANAGER_ID")); [|done]];
    cbn [mbind outcome_bind fmap outcome_fmap];
    (destruct (isnull (cell_of df row "DEPARTMENT_ID")); cbn [negb];
     [|destruct (py_int (cell_of df row "DEPARTMENT_ID")); [|done]];
     cbn [mbind outcome_bind fmap outcome_fmap];
     (destruct (dict_getitem dict _); [|done]);
     cbn [mbind outcome_bind]; intros [= <-]; simpl; eauto 10).
Qed.

Lemma persist_result_Ok df names db body :
  (persist_result df names db).1 = Ok body →
  ∃ bound table1 objs table2,
    mapM sql_text names = Ok bound
    ∧ save_companies (new_companies_of names bound (companies db))
        (companies db) = Ok table1
    ∧ mapM (new_employee df (company_name_to_id_of bound table1)) (rows df)
      = Ok objs
    ∧ save_employees objs (employees db) = Ok table2
    ∧ body = {| message := "Data uploaded successfully.";
                companies_created :=
                  length (new_companies_of names bound (companies db));
                employees_created := length objs |}
    ∧ (persist_result df names db).2
      = {| companies := table1; employees := table2 |}.
Proof.
  unfold persist_result.
  destruct (mapM sql_text names) as [bound|]; [|done]. simpl.
  destruct (save_companies _ (companies db)) as [table1|] eqn:E1; [|done].
  destruct (mapM _ (rows df)) as [objs|] eqn:E2; [|done].
  destruct (save_employees objs (employees db)) as [table2|] eqn:E3;
    [|done].
  simpl. intros [= <-]. by eexists _, _, _, _.
Qed.

Lemma upload_employees_200 file db body db' :
  upload_employees file db = (HTTP200 body, db') →
  ∃ df, accepted file df
        ∧ persist_result df (company_names df) db = (Ok body, db').
Proof.
  intros Hup.
  destruct (upload_employees_cases file db) as [[detail Hd]|[df Hacc]];
    [congruence|].
  exists df. split; [done|].
  rewrite (upload_employees_accepted _ _ _ Hacc) in Hup.
  unfold response_of in Hup.
  destruct (persist_result df (company_names df) db) as [[b|e] d];
    simpl in Hup; congruence.
Qed.

(** C9.  After a successful upload the table of employees is the former
    one followed by one row per record, in order, whose [manager_id] and
    [department_id] are absent when the cell is missing and the cell
    coerced to an integer otherwise. *)
Theorem null_manager_department_absent file df db body db' :
  upload_employees file db = (HTTP200 body, db') →
  read file = Some df →
  ∃ new,
    employees db' = employees db ++ new
    ∧ Forall2
        (fun row e =>
           absent_or_int (cell_of df row "MANAGER_ID")
             (Employee.manager_id e)
           ∧ absent_or_int (cell_of df row "DEPARTMENT_ID")
               (Employee.department_id e))
        (rows df) new.
Proof.
  intros Hup Hread.
  apply upload_employees_200 in Hup as (df' & Hacc & Hres).
  assert (df' = df) as ->.
  { destruct Hacc as (_ & Hr & _). congruence. }
  destruct Hacc as (_ & _ & Hcols).
  pose proof (persist_result_Ok df (company_names df) db body) as Hok.
  rewrite Hres in Hok.
  destruct Hok as (bound & table1 & objs & table2 & _ & _ & Hobjs & Hsave
                   & _ & Hdb); [done|].
  simpl in Hdb. subst db'. simpl.
  apply save_employees_Ok in Hsave as (new & -> & Hnew).
  exists new. split; [done|].
  apply mapM_Ok_Forall2 in Hobjs.
  clear -Hobjs Hnew Hcols.
  revert new Hnew.
  induction Hobjs as [|row e rows' objs' Hrow _ IH]; intros new Hnew.
  - inversion Hnew. constructor.
  - inversion Hnew as [|? r ? new' [t ->] Hrest]; subst.
    constructor; [|by apply IH].
    apply new_employee_Ok in Hrow as (_ & Hm & Hd & _); [|done].
    done.
Qed.
End Rows.
Section Names.
Context {rt : Runtime}.

Lemma existsb_cell_eqb_text s seen :
  existsb (cell_eqb (CStr s)) (CStr <$> seen) = true ↔ s ∈ seen.
Proof.
  induction seen as [|t seen IH]; simpl.
  - split; [done|]. intros Hin. by apply elem_of_nil in Hin.
  - rewrite orb_true_iff, IH, elem_of_cons, String.eqb_eq. tauto.
Qed.

Lemma drop_duplicates_from_text l : ∀ seen,
  ∃ l', drop_duplicates_from (CStr <$> seen) (CStr <$> l) = CStr <$> l'
        ∧ NoDup l'
        ∧ ∀ s, s ∈ l' ↔ s ∈ l ∧ s ∉ seen.
Proof.
  induction l as [|s l IH]; intros seen.
  - exists []. split; [done|]. split; [constructor|].
    intros s. rewrite !elem_of_nil. tauto.
  - rewrite fmap_cons. cbn [drop_duplicates_from].
    destruct (existsb _ _) eqn:Hex.
    + apply existsb_cell_eqb_text in Hex.
      destruct (IH seen) as (l' & -> & Hnd & Hin).
      exists l'. split; [done|]. split; [done|].
      intros t. rewrite Hin, elem_of_cons.
      split; [tauto|]. intros [[->|Ht] Hns]; tauto.
    + assert (s ∉ seen) as Hs.
      { intros Hin. apply existsb_cell_eqb_text in Hin. congruence. }
      destruct (IH (s :: seen)) as (l' & Hl' & Hnd & Hin).
      rewrite fmap_cons in Hl'. rewrite Hl'. exists (s :: l'). split; [done|]. split.
      * constructor; [|done]. rewrite Hin. rewrite elem_of_cons. tauto.
      * intros t. rewrite !elem_of_cons, Hin, elem_of_cons.
        split.
        -- intros [->|[Ht Hnt]]; [tauto|]. tauto.
        -- intros [[->|Ht] Hnt]; [tauto|].
           destruct (decide (t = s)) as [->|Hne]; tauto.
Qed.

Lemma drop_duplicates_from_subset l : ∀ seen c,
  c ∈ drop_duplicates_from seen l → c ∈ l.
Proof.
  induction l as [|a l IH]; intros seen c; simpl; [done|].
  destruct (existsb _ _).
  - intros Hc. right. eauto.
  - intros [->|Hc]%elem_of_cons; [by left|]. right. eauto.
Qed.

Lemma cells_text df :
  (∀ row, row ∈ rows df →
          ∃ s, cell_of df row "COMPANY_NAME" = CStr s) →
  (fun row => cell_of df row "COMPANY_NAME") <$> rows df
  = CStr <$> company_texts df.
Proof.
  unfold company_texts. induction (rows df) as [|row l IH]; intros Hall;
    [done|].
  simpl. destruct (Hall row) as [s Hs]; [by left|].
  rewrite Hs. simpl. f_equal. apply IH. intros r Hr. apply Hall. by right.
Qed.

Lemma company_names_text df :
  (∀ row, row ∈ rows df →
          ∃ s, cell_of df row "COMPANY_NAME" = CStr s) →
  ∃ l, company_names df = CStr <$> l
       ∧ NoDup l
       ∧ ∀ s, s ∈ l ↔ s ∈ company_texts df.
Proof.
  intros Hall. unfold company_names, drop_duplicates.
  rewrite cells_text by done.
  destruct (drop_duplicates_from_text (company_texts df) [])
    as (l & Hl & Hnd & Hin).
  exists l. split; [done|]. split; [done|].
  intros s. rewrite Hin, elem_of_nil. tauto.
Qed.

Lemma mapM_cons {A B} (f : A → outcome B) a l :
  mapM f (a :: l) = (b ← f a; bs ← mapM f l; Ok (b :: bs)).
Proof. reflexivity. Qed.

Lemma sql_text_names l :
  mapM sql_text (CStr <$> l) = Ok (Some <$> l).
Proof.
  induction l as [|s l IH]; [done|].
  by rewrite fmap_cons, mapM_cons, IH.
Qed.

Lemma elem_of_companies_in bound table c :
  c ∈ companies_in bound table
  ↔ (is_Some (Company.company_name c) ∧ Company.company_name c ∈ bound)
    ∧ c ∈ table.
Proof. unfold companies_in. by rewrite list_elem_of_filter. Qed.

Lemma dict_lookup_Some l : ∀ (m : gmap (option string) Z) k i,
  foldl (fun d c => <[Company.company_name c := Company.id c]> d) m l !! k
  = Some i →
  m !! k = Some i ∨ ∃ c, c ∈ l ∧ Company.company_name c = k.
Proof.
  induction l as [|c l IH]; intros m k i; simpl; [by left|].
  intros [Hm|(c' & Hc' & Hk)]%IH.
  - destruct (decide (Company.company_name c = k)) as [Heq|Hne].
    + right. exists c. split; [by left|done].
    + rewrite lookup_insert_ne in Hm by done. by left.
  - right. exists c'. split; [by right|done].
Qed.

Lemma dict_lookup_elem l : ∀ (m : gmap (option string) Z) k,
  is_Some (m !! k) ∨ (∃ c, c ∈ l ∧ Company.company_name c = k) →
  is_Some
    (foldl (fun d c => <[Company.company_name c := Company.id c]> d) m l
     !! k).
Proof.
  induction l as [|c l IH]; intros m k; simpl.
  - intros [Hm|(c & Hc & _)]; [done|]. by apply elem_of_nil in Hc.
  - intros Hk. apply IH.
    destruct (decide (Company.company_name c = k)) as [Heq|Hne].
    + left. rewrite Heq, lookup_insert_eq. eauto.
    + rewrite lookup_insert_ne by done.
      destruct Hk as [Hm|(c' & Hc' & Hk)]; [by left|].
      apply elem_of_cons in Hc' as [->|Hc']; [done|].
      right. eauto.
Qed.

Lemma filter_none {A} (P : A → Prop) `{∀ x, Decision (P x)} (l : list A) :
  (∀ x, x ∈ l → ¬ P x) → filter P l = [].
Proof.
  induction l as [|a l IH]; intros Hall; [done|].
  rewrite filter_cons. destruct (decide (P a)) as [Hp|_].
  - destruct (Hall a); [by left|done].
  - apply IH. intros x Hx. apply Hall. by right.
Qed.

Lemma filter_all {A} (P : A → Prop) `{∀ x, Decision (P x)} (l : list A) :
  (∀ x, x ∈ l → P x) → filter P l = l.
Proof.
  induction l as [|a l IH]; intros Hall; [done|].
  rewrite filter_cons. destruct (decide (P a)) as [_|Hp].
  - f_equal. apply IH. intros x Hx. apply Hall. by right.
  - destruct Hp. apply Hall. by left.
Qed.
End Names.
Section Fresh.
Context {rt : Runtime}.

Lemma save_companies_fresh l : ∀ table,
  NoDup l →
  (∀ s, s ∈ l → Some s ∉ Company.company_name <$> table) →
  ∃ added,
    save_companies (CStr <$> l) table = Ok (table ++ added)
    ∧ Company.company_name <$> added = Some <$> l.
Proof.
  induction l as [|s l IH]; intros table Hnd Hfresh.
  - exists []. by rewrite app_nil_r.
  - apply NoDup_cons in Hnd as [Hs Hnd].
    rewrite fmap_cons. cbn [save_companies sql_text mbind outcome_bind].
    rewrite bool_decide_eq_false_2.
    2:{ intros [_ Hin]. by apply (Hfresh s); [left|]. }
    edestruct (IH (table ++ [ {| Company.id := next_id (Company.id <$> table);
                                 Company.company_name := Some s |} ]))
      as (added & -> & Hnames); [done| |].
    + intros t Ht. rewrite fmap_app, elem_of_app. intros [Hin|Hin].
      * by apply (Hfresh t); [right|].
      * simpl in Hin. apply list_elem_of_singleton in Hin.
        injection Hin as ->. done.
    + eexists (_ :: added). rewrite <- app_assoc. split; [done|].
      by rewrite !fmap_cons, Hnames.
Qed.

Lemma save_employees_fresh objs : ∀ table,
  Forall insertable objs →
  NoDup (Employee.new_employee_id <$> objs) →
  (∀ e, e ∈ objs →
        Some (Employee.new_employee_id e) ∉ Employee.employee_id <$> table) →
  ∃ added,
    save_employees objs table = Ok (table ++ added)
    ∧ length added = length objs.
Proof.
  induction objs as [|e objs IH]; intros table Hins Hnd Hfresh.
  - exists []. by rewrite app_nil_r.
  - apply Forall_cons in Hins as [(He & Hm & Hd) Hins].
    rewrite fmap_cons in Hnd. apply NoDup_cons in Hnd as [Hid Hnd].
    cbn [save_employees]. rewrite He, Hm, Hd.
    cbn [mbind outcome_bind].
    rewrite bool_decide_eq_false_2 by (apply Hfresh; by left).
    edestruct (IH (table ++ [saved_employee table e]))
      as (added & -> & Hlen); [done|done| |].
    + intros e' He'. rewrite fmap_app, elem_of_app. intros [Hin|Hin].
      * by apply (Hfresh e'); [right|].
      * simpl in Hin. apply list_elem_of_singleton in Hin.
        injection Hin as Heq. apply Hid. rewrite <- Heq.
        apply list_elem_of_fmap. eauto.
    + eexists (_ :: added). rewrite <- app_assoc. split; [done|].
      simpl. by rewrite Hlen.
Qed.

Lemma new_employee_well_formed df dict row :
  (∀ col, col ∈ required_columns → col ∈ columns df) →
  row_well_formed df row →
  (∀ s, cell_of df row "COMPANY_NAME" = CStr s → is_Some (dict !! Some s)) →
  ∃ e, new_employee df dict row = Ok e
       ∧ Employee.new_employee_id e = employee_number df row
       ∧ insertable e.
Proof.
  intros Hcols ((z & Hz & Hfz) & (f & Hf) & Hm & Hd & (s & Hs)) Hdict.
  rewrite new_employee_cells by done.
  unfold employee_number, insertable. rewrite Hz, Hf, Hs.
  cbn [mbind outcome_bind dict_getitem].
  destruct (Hdict s Hs) as [i ->].
  assert (∀ c, isnull c = true ∨ integer_cell c →
               ∃ v, (if negb (isnull c) then Some <$> py_int c else Ok None)
                    = Ok v ∧ sql_opt_int v = Ok v) as Hopt.
  { intros c Hc. destruct (isnull c) eqn:Hn; cbn [negb].
    - exists None. done.
    - destruct Hc as [|(k & -> & Hk)]; [done|].
      exists (Some k). split; [done|]. simpl. by rewrite sql_int_Ok. }
  destruct (Hopt _ Hm) as (m & -> & Hsm).
  destruct (Hopt _ Hd) as (d & -> & Hsd).
  cbn [mbind outcome_bind].
  eexists. split; [done|]. simpl. by rewrite sql_int_Ok.
Qed.
End Fresh.

Section FreshUpload.
Context {rt : Runtime}.

(** C6.  A well-formed file none of whose company names and employee
    numbers is in the store is answered 200; with N the number of
    distinct company names and M the number of records, the answer
    counts N companies and M employees, and the tables are the former
    ones followed by N and M new rows. *)
Theorem fresh_upload_counts file df db :
  well_formed file df →
  unknown_to db df →
  ∃ new_companies new_employees,
    upload_employees file db
    = (HTTP200 {| message := "Data uploaded successfully.";
                  companies_created := length new_companies;
                  employees_created := length new_employees |},
       {| companies := companies db ++ new_companies;
          employees := employees db ++ new_employees |})
    ∧ length new_companies
      = size (list_to_set (company_texts df) : gset string)
    ∧ length new_employees = length (rows df).
Proof.
  intros (Hacc & Hrows & Hnd) (Hnames & Hids).
  rewrite (upload_employees_accepted _ _ _ Hacc).
  destruct Hacc as (_ & _ & Hcols).
  rewrite Forall_forall in Hrows.
  destruct (company_names_text df) as (l & Hl & Hndl & Hin).
  { intros row Hrow. apply Hrows in Hrow. apply Hrow. }
  unfold persist_result. rewrite Hl, sql_text_names.
  assert (new_companies_of (CStr <$> l) (Some <$> l) (companies db)
          = CStr <$> l) as ->.
  { unfold new_companies_of. apply filter_all.
    intros c [s [-> Hs]]%list_elem_of_fmap. simpl.
    rewrite bool_decide_eq_false_2; [done|].
    rewrite elem_of_list_to_set.
    intros (c & Hc & [_ Hct]%elem_of_companies_in)%list_elem_of_fmap.
    apply (Hnames s); [by apply Hin|].
    rewrite Hc. apply list_elem_of_fmap. eauto. }
  destruct (save_companies_fresh l (companies db)) as (added & -> & Hadded);
    [done|by intros s Hs; apply Hnames, Hin|].
  cbv zeta.
  set (dict := company_name_to_id_of _ _).
  destruct (mapM_Ok_exists (new_employee df dict)
              (fun row e => Employee.new_employee_id e
                            = employee_number df row ∧ insertable e)
              (rows df)) as (objs & -> & Hobjs).
  { intros row Hrow. apply new_employee_well_formed; [done|by apply Hrows|].
    intros s Hs. apply dict_lookup_elem. right.
    assert (s ∈ l) as Hsl.
    { apply Hin. unfold company_texts. apply list_elem_of_omap.
      exists row. by rewrite Hs. }
    assert (Some s ∈ Company.company_name <$> added) as Hsa.
    { rewrite Hadded. apply list_elem_of_fmap. eauto. }
    apply list_elem_of_fmap in Hsa as (c & Hc & Hca).
    exists c. split; [|done].
    apply elem_of_companies_in. rewrite <- Hc.
    split; [split; [eauto|]|].
    - apply list_elem_of_fmap. eauto.
    - apply elem_of_app. by right. }
  assert (Employee.new_employee_id <$> objs
          = employee_number df <$> rows df) as Hnums.
  { clear -Hobjs. induction Hobjs as [|row e ? ? [He _] _ IH]; [done|].
    rewrite !fmap_cons. by rewrite He, IH. }
  destruct (save_employees_fresh objs (employees db))
    as (new & -> & Hnew).
  - clear -Hobjs. induction Hobjs as [|? ? ? ? [_ ?] _ IH]; by constructor.
  - by rewrite Hnums.
  - intros e He.
    assert (Employee.new_employee_id e ∈ employee_number df <$> rows df)
      as Hn by (rewrite <- Hnums; apply list_elem_of_fmap; eauto).
    apply list_elem_of_fmap in Hn as (row & -> & Hrow). by apply Hids.
  - exists added, new. unfold response_of. simpl.
    assert (length added = length l) as Hla.
    { by rewrite <- (length_fmap Company.company_name), Hadded,
           length_fmap. }
    split; [|split].
    + rewrite length_fmap, Hla. do 3 f_equal.
      rewrite Hnew. by apply Forall2_length in Hobjs.
    + rewrite Hla. rewrite <- (size_list_to_set (C := gset string)) by done.
      f_equal. apply set_eq. intros s. rewrite !elem_of_list_to_set.
      apply Hin.
    + rewrite Hnew. symmetry. by apply Forall2_length in Hobjs.
Qed.
End FreshUpload.
Section Reupload.
Context {rt : Runtime}.

Lemma mapM_Ok_elem {A B} (f : A → outcome B) l bs a :
  mapM f l = Ok bs → a ∈ l → ∃ b, f a = Ok b.
Proof.
  intros Hm%mapM_Ok_Forall2 Hin.
  induction Hm as [|a' b l' bs' Hb _ IH]; [by apply elem_of_nil in Hin|].
  apply elem_of_cons in Hin as [->|Hin]; eauto.
Qed.

Lemma dict_getitem_Ok dict c i :
  dict_getitem dict c = Ok i → ∃ s, c = CStr s ∧ dict !! Some s = Some i.
Proof.
  destruct c as [| |s]; simpl; [done..|].
  destruct (dict !! Some s) as [j|] eqn:Hj; [|done].
  intros [= ->]. eauto.
Qed.

Lemma save_employees_first e objs table table' :
  save_employees (e :: objs) table = Ok table' →
  insertable e
  ∧ Some (Employee.new_employee_id e) ∈ Employee.employee_id <$> table'.
Proof.
  cbn [save_employees]. unfold insertable.
  destruct (sql_int (Employee.new_employee_id e)) as [z|] eqn:Ez; [|done].
  destruct (sql_opt_int (Employee.new_manager_id e)) as [m|] eqn:Em;
    [|done].
  destruct (sql_opt_int (Employee.new_department_id e)) as [d|] eqn:Ed;
    [|done].
  cbn [mbind outcome_bind]. case_bool_decide; [done|].
  intros (added & -> & _)%save_employees_Ok.
  apply sql_int_inv in Ez as ->.
  apply sql_opt_int_inv in Em as ->.
  apply sql_opt_int_inv in Ed as ->.
  split; [done|].
  rewrite !fmap_app, !elem_of_app. left. right. simpl. by left.
Qed.

(** C2 (amended).  A file with at least one record that was ingested
    once is rejected when uploaded again: the employee number of its
    first record is in the store already, the INSERT violates the
    UNIQUE constraint, the answer is 500 and the store is left as the
    first upload made it, with no company and no employee added. *)
Theorem reupload_rejected file df db body db1 :
  upload_employees file db = (HTTP200 body, db1) →
  read file = Some df →
  rows df ≠ [] →
  upload_employees file db1 = (HTTP500 IntegrityError, db1).
Proof.
  intros Hup Hread Hrows.
  apply upload_employees_200 in Hup as (df' & Hacc & Hres).
  assert (df' = df) as ->.
  { destruct Hacc as (_ & Hr & _). congruence. }
  rewrite (upload_employees_accepted _ _ _ Hacc).
  destruct Hacc as (_ & _ & Hcols).
  pose proof (persist_result_Ok df (company_names df) db body) as Hok.
  rewrite Hres in Hok.
  destruct Hok as (bound & table1 & objs & table2 & Hbound & _ & Hobjs
                   & Hsave & _ & Hdb); [done|].
  simpl in Hdb. subst db1.
  unfold persist_result. rewrite Hbound. cbn [companies employees].
  assert (new_companies_of (company_names df) bound table1 = []) as ->.
  { unfold new_companies_of. apply filter_none.
    intros name Hname. unfold company_names, drop_duplicates in Hname.
    apply drop_duplicates_from_subset in Hname.
    apply list_elem_of_fmap in Hname as (row & -> & Hrow).
    destruct (mapM_Ok_elem _ _ _ _ Hobjs Hrow) as (e & He).
    apply new_employee_Ok in He as (_ & _ & _ & _ & Hget); [|done].
    apply dict_getitem_Ok in Hget as (s & -> & Hs).
    apply dict_lookup_Some in Hs as [Hs|(c & Hc & Hcs)]; [done|].
    simpl. rewrite bool_decide_eq_true_2; [by intros []|].
    apply elem_of_list_to_set, list_elem_of_fmap. eauto. }
  cbn [save_companies]. cbv zeta. rewrite Hobjs.
  destruct objs as [|e objs].
  { apply mapM_Ok_Forall2 in Hobjs. inversion Hobjs. congruence. }
  apply save_employees_first in Hsave as ((He & Hm & Hd) & Hin).
  cbn [save_employees]. rewrite He, Hm, Hd. cbn [mbind outcome_bind].
  by rewrite bool_decide_eq_true_2.
Qed.
End Reupload.
Section Resolve.
Context {rt : Runtime}.

Lemma filter_name_in_text (names : gset (option string))
    (P : string → Prop) `{∀ s, Decision (P s)} (l : list string) :
  (∀ s, s ∈ l → Some s ∈ names ↔ ¬ P s) →
  filter (fun name => negb (name_in name names)) (CStr <$> l)
  = CStr <$> filter P l.
Proof.
  induction l as [|s l IH]; intros Hiff; [done|].
  rewrite fmap_cons, !filter_cons. cbn [name_in].
  pose proof (Hiff s (list_elem_of_here _ _)) as Hs.
  destruct (decide (P s)) as [Hp|Hn].
  - rewrite bool_decide_eq_false_2 by (rewrite Hs; tauto). cbn [negb].
    rewrite decide_True by done. rewrite fmap_cons. f_equal.
    apply IH. intros t Ht. apply Hiff. by right.
  - rewrite bool_decide_eq_true_2 by (by rewrite Hs).
    cbn [negb]. rewrite decide_False by (by intros []).
    apply IH. intros t Ht. apply Hiff. by right.
Qed.

Lemma new_companies_text l table :
  new_companies_of (CStr <$> l) (Some <$> l) table
  = CStr <$> filter (fun s => Some s ∉ Company.company_name <$> table) l.
Proof.
  unfold new_companies_of. apply filter_name_in_text.
  intros s Hs. rewrite elem_of_list_to_set.
  split.
  - intros (c & Hc & [_ Hct]%elem_of_companies_in)%list_elem_of_fmap Hn.
    apply Hn. apply list_elem_of_fmap. eauto.
  - intros Hn. apply dec_stable in Hn. apply list_elem_of_fmap.
    apply list_elem_of_fmap in Hn as (c & Hc & Hct).
    exists c. split; [done|].
    apply elem_of_companies_in. rewrite <- Hc.
    split; [split; [eauto|]|done].
    apply list_elem_of_fmap. eauto.
Qed.

(** With text names the company inserts cannot fail, and afterwards
    every name has its row. *)
Lemma save_companies_text l table :
  NoDup l →
  ∃ added,
    save_companies (new_companies_of (CStr <$> l) (Some <$> l) table) table
    = Ok (table ++ added)
    ∧ ∀ s, s ∈ l → Some s ∈ Company.company_name <$> (table ++ added).
Proof.
  intros Hnd. rewrite new_companies_text.
  set (P := fun s => Some s ∉ Company.company_name <$> table).
  destruct (save_companies_fresh (filter P l) table) as (added & -> & Hadded).
  - by apply NoDup_filter.
  - by intros s [Hs _]%list_elem_of_filter.
  - exists added. split; [done|].
    intros s Hs. rewrite fmap_app, elem_of_app.
    destruct (decide (P s)) as [Hp|Hn].
    + right. rewrite Hadded. apply list_elem_of_fmap. exists s.
      split; [done|]. by apply list_elem_of_filter.
    + left. by apply dec_stable in Hn.
Qed.

Lemma dict_covers bound table s :
  Some s ∈ bound →
  Some s ∈ Company.company_name <$> table →
  is_Some (company_name_to_id_of bound table !! Some s).
Proof.
  intros Hb (c & Hc & Hct)%list_elem_of_fmap.
  apply dict_lookup_elem. right. exists c. split; [|done].
  apply elem_of_companies_in. rewrite <- Hc. eauto.
Qed.

Lemma py_int_Raise c e : py_int c = Raise e → e ≠ KeyError.
Proof.
  destruct c as [z|[]|s]; simpl; try congruence.
  destruct (int_of_str s); congruence.
Qed.

Lemma py_float_Raise c e : py_float c = Raise e → e ≠ KeyError.
Proof.
  destruct c as [z|f|s]; simpl; try congruence.
  - destruct (binary_normalize _ _ _ _ _); congruence.
  - destruct (float_of_str s); congruence.
Qed.

Lemma new_employee_Raise df dict row e :
  (∀ col, col ∈ required_columns → col ∈ columns df) →
  (∃ i, dict_getitem dict (cell_of df row "COMPANY_NAME") = Ok i) →
  new_employee df dict row = Raise e → e ≠ KeyError.
Proof.
  intros Hcols [i Hi]. rewrite new_employee_cells by done. rewrite Hi.
  destruct (py_int (cell_of df row "EMPLOYEE_ID")) eqn:E1;
    [|intros [= <-]; by eapply py_int_Raise].
  destruct (py_float _) eqn:E2; [|intros [= <-]; by eapply py_float_Raise].
  cbn [mbind outcome_bind].
  destruct (isnull (cell_of df row "MANAGER_ID")); cbn [negb];
    [|destruct (py_int (cell_of df row "MANAGER_ID")) eqn:E3;
      [|intros [= <-]; by eapply py_int_Raise]];
    cbn [mbind outcome_bind fmap outcome_fmap];
    (destruct (isnull (cell_of df row "DEPARTMENT_ID")); cbn [negb];
     [|destruct (py_int (cell_of df row "DEPARTMENT_ID")) eqn:E4;
       [|intros [= <-]; by eapply py_int_Raise]];
     cbn [mbind outcome_bind fmap outcome_fmap]; done).
Qed.

Lemma mapM_Raise_inv {A B} (f : A → outcome B) l e :
  mapM f l = Raise e → ∃ a, a ∈ l ∧ f a = Raise e.
Proof.
  induction l as [|a l IH]; [done|]. rewrite mapM_cons.
  destruct (f a) eqn:Ha; cbn [mbind outcome_bind].
  - destruct (mapM f l); cbn [mbind outcome_bind]; [done|].
    intros [= <-]. destruct IH as (a' & Ha' & Hf); [done|].
    exists a'. split; [by right|done].
  - intros [= <-]. exists a. split; [by left|done].
Qed.

Lemma save_employees_Raise objs : ∀ table e,
  save_employees objs table = Raise e → e ≠ KeyError.
Proof.
  induction objs as [|o objs IH]; intros table e; [done|].
  cbn [save_employees]. unfold sql_opt_int, sql_int.
  repeat (match goal with
          | |- context [match ?o with Some _ => _ | None => _ end] =>
              destruct o
          | |- context [if fits_int64 ?z then _ else _] =>
              destruct (fits_int64 z)
          end; cbn [mbind outcome_bind fmap outcome_fmap];
          try congruence);
    (case_bool_decide; [congruence|apply IH]).
Qed.

(** C5 (amended).  When the file is accepted and every COMPANY_NAME cell
    is text, the company inserts succeed, the name of every record is a
    key of the dictionary built from the second query, and the upload
    never answers with a KeyError. *)
Theorem text_company_names_resolve file df db :
  accepted file df →
  (∀ row, row ∈ rows df → ∃ s, cell_of df row "COMPANY_NAME" = CStr s) →
  (∃ bound table1,
     mapM sql_text (company_names df) = Ok bound
     ∧ save_companies
         (new_companies_of (company_names df) bound (companies db))
         (companies db) = Ok table1
     ∧ ∀ row, row ∈ rows df →
         ∃ i, dict_getitem (company_name_to_id_of bound table1)
                (cell_of df row "COMPANY_NAME") = Ok i)
  ∧ (upload_employees file db).1 ≠ HTTP500 KeyError.
Proof.
  intros Hacc Htext.
  destruct (company_names_text df Htext) as (l & Hl & Hnd & Hin).
  destruct (save_companies_text l (companies db) Hnd)
    as (added & Hsave & Hcover).
  assert (∀ row, row ∈ rows df →
            ∃ i, dict_getitem
                   (company_name_to_id_of (Some <$> l)
                      (companies db ++ added))
                   (cell_of df row "COMPANY_NAME") = Ok i) as Hget.
  { intros row Hrow. destruct (Htext row Hrow) as [s Hs]. rewrite Hs.
    assert (s ∈ l) as Hsl.
    { apply Hin. unfold company_texts. apply list_elem_of_omap.
      exists row. by rewrite Hs. }
    destruct (dict_covers (Some <$> l) (companies db ++ added) s)
      as [i Hi]; [apply list_elem_of_fmap; eauto|by apply Hcover|].
    exists i. simpl. by rewrite Hi. }
  split.
  - exists (Some <$> l), (companies db ++ added).
    rewrite Hl, sql_text_names. by rewrite Hsave.
  - rewrite (upload_employees_accepted _ _ _ Hacc).
    destruct Hacc as (_ & _ & Hcols).
    unfold persist_result, response_of.
    rewrite Hl, sql_text_names, Hsave. cbv zeta.
    destruct (mapM _ (rows df)) as [objs|e] eqn:Hobjs; simpl.
    + destruct (save_employees objs (employees db)) as [t|e] eqn:Hs;
        simpl; [done|].
      intros [= ->]. by eapply save_employees_Raise.
    + intros [= ->].
      apply mapM_Raise_inv in Hobjs as (row & Hrow & Hraise).
      eapply new_employee_Raise; [done|by apply Hget|done|done].
Qed.
End Resolve.
Section Keys.
Lemma fold_max_ge i l j : j ∈ i :: l → j ≤ fold_right Z.max i l.
Proof.
  induction l as [|a l IH]; simpl.
  - intros ->%list_elem_of_singleton. lia.
  - intros [->|[->|Hj]%elem_of_cons]%elem_of_cons.
    + specialize (IH (list_elem_of_here _ _)). lia.
    + lia.
    + specialize (IH (list_elem_of_further _ _ _ Hj)). lia.
Qed.

Lemma next_id_fresh ids : next_id ids ∉ ids.
Proof.
  destruct ids as [|i l]; [apply not_elem_of_nil|].
  intros Hin%fold_max_ge. simpl in Hin. lia.
Qed.

Lemma find_company_unique table c :
  NoDup (Company.id <$> table) → c ∈ table →
  find_company table (Some (Company.id c)) = Some c.
Proof.
  simpl. induction table as [|c' table IH]; intros Hnd Hin.
  - by apply elem_of_nil in Hin.
  - rewrite fmap_cons in Hnd. apply NoDup_cons in Hnd as [Hc' Hnd].
    simpl. case_bool_decide as Hid.
    + apply elem_of_cons in Hin as [->|Hin]; [done|].
      destruct Hc'. rewrite Hid. apply list_elem_of_fmap. eauto.
    + apply elem_of_cons in Hin as [->|Hin]; [done|]. by apply IH.
Qed.

Lemma find_company_app table added i c :
  find_company table i = Some c →
  find_company (table ++ added) i = Some c.
Proof.
  destruct i as [i|]; [|done]. simpl.
  induction table as [|c' table IH]; [done|]. simpl.
  by case_bool_decide.
Qed.

Lemma dict_lookup_id l : ∀ (m : gmap (option string) Z) k i,
  foldl (fun d c => <[Company.company_name c := Company.id c]> d) m l !! k
  = Some i →
  m !! k = Some i
  ∨ ∃ c, c ∈ l ∧ Company.company_name c = k ∧ Company.id c = i.
Proof.
  induction l as [|c l IH]; intros m k i; simpl; [by left|].
  intros [Hm|(c' & Hc' & Hk)]%IH.
  - destruct (decide (Company.company_name c = k)) as [Heq|Hne].
    + rewrite Heq, lookup_insert_eq in Hm. injection Hm as <-.
      right. exists c. split; [by left|done].
    + rewrite lookup_insert_ne in Hm by done. by left.
  - right. exists c'. split; [by right|done].
Qed.
End Keys.

Section RoundTrip.
Context {rt : Runtime}.

Lemma save_companies_ids names : ∀ table table',
  NoDup (Company.id <$> table) →
  save_companies names table = Ok table' →
  NoDup (Company.id <$> table').
Proof.
  induction names as [|name names IH]; intros table table' Hnd Hs;
    cbn [save_companies] in Hs.
  - by simplify_eq.
  - destruct (sql_text name) as [text|e]; [|done].
    cbn [mbind outcome_bind] in Hs.
    case_bool_decide; [done|].
    eapply IH; [|exact Hs].
    rewrite fmap_app. apply NoDup_app. split; [done|].
    split; [|apply NoDup_singleton].
    intros i Hi ->%list_elem_of_singleton. simpl in Hi.
    by apply next_id_fresh in Hi.
Qed.

Lemma entry_of_app table added emp r :
  entry_of table emp = Ok r → entry_of (table ++ added) emp = Ok r.
Proof.
  unfold entry_of.
  destruct (find_company table (Employee.company_id emp)) as [c|] eqn:Hc.
  - by rewrite (find_company_app _ added _ _ Hc).
  - unfold EmployeeResponse.make, EmployeeResponse.required.
    repeat (match goal with |- context [match ?o with _ => _ end] =>
              destruct o; simpl; try congruence end).
Qed.

Lemma mapM_Ok_impl {A B} (f g : A → outcome B) l bs :
  (∀ a b, f a = Ok b → g a = Ok b) →
  mapM f l = Ok bs → mapM g l = Ok bs.
Proof.
  intros Hfg. revert bs. induction l as [|a l IH]; intros bs; [done|].
  rewrite !mapM_cons.
  destruct (f a) as [b|] eqn:Hb; [|done]. rewrite (Hfg _ _ Hb).
  cbn [mbind outcome_bind].
  destruct (mapM f l) as [bs'|]; [|done]. by rewrite (IH bs').
Qed.

Lemma mapM_app_Ok {A B} (f : A → outcome B) l1 l2 bs1 bs2 :
  mapM f l1 = Ok bs1 → mapM f l2 = Ok bs2 →
  mapM f (l1 ++ l2) = Ok (bs1 ++ bs2).
Proof.
  revert bs1. induction l1 as [|a l1 IH]; intros bs1 H1 H2.
  - by injection H1 as <-.
  - rewrite <- app_comm_cons, mapM_cons. rewrite mapM_cons in H1.
    destruct (f a) as [b|]; [|done]. cbn [mbind outcome_bind] in *.
    destruct (mapM f l1) as [bs|]; [|done]. cbn [mbind outcome_bind] in H1.
    injection H1 as <-. by rewrite (IH bs).
Qed.

Lemma mapM_Forall2_Ok {A B C} (f : B → outcome C) (Q : A → C → Prop)
    (l : list A) (xs : list B) :
  Forall2 (fun a x => ∃ c, f x = Ok c ∧ Q a c) l xs →
  ∃ cs, mapM f xs = Ok cs ∧ Forall2 Q l cs.
Proof.
  induction 1 as [|a x l xs (c & Hc & HQ) _ (cs & Hcs & HF)].
  - exists []. split; [done|constructor].
  - exists (c :: cs). rewrite mapM_cons, Hc, Hcs. split; [done|].
    by constructor.
Qed.

Lemma new_entries df bound table rs objs new_rows :
  (∀ col, col ∈ required_columns → col ∈ columns df) →
  (∀ row, row ∈ rs → py_float (cell_of df row "SALARY") ≠ Ok S754_nan) →
  NoDup (Company.id <$> table) →
  Forall2 (fun row e =>
             new_employee df (company_name_to_id_of bound table) row = Ok e)
          rs objs →
  Forall2 (fun e r => ∃ t, r = saved_employee t e) objs new_rows →
  Forall2 (fun row r =>
             ∃ entry, entry_of table r = Ok entry
                      ∧ cell_of df row "COMPANY_NAME"
                        = CStr (EmployeeResponse.company_name entry))
          rs new_rows.
Proof.
  intros Hcols Hsalary Hids Hobjs. revert new_rows.
  induction Hobjs as [|row e rs objs Hrow _ IH]; intros new_rows Hnew.
  - inversion Hnew. constructor.
  - inversion Hnew as [|? r ? new' [t ->] Hrest']; subst.
    constructor.
    2:{ apply IH; [|done]. intros r Hr. apply Hsalary. by right. }
    apply new_employee_Ok in Hrow as (_ & _ & _ & Hf & Hget); [|done].
    apply dict_getitem_Ok in Hget as (s & Hs & Hi).
    apply dict_lookup_id in Hi as [Hi|(c & Hcin & Hcn & Hci)]; [done|].
    apply elem_of_companies_in in Hcin as [_ Hcin].
    unfold entry_of, saved_employee. cbn [Employee.company_id].
    rewrite <- Hci, (find_company_unique _ _ Hids Hcin), Hcn.
    assert (Employee.new_salary e ≠ S754_nan) as Hnan.
    { intros Heq. apply (Hsalary row); [by left|]. by rewrite Hf, Heq. }
    unfold sql_real.
    destruct (Employee.new_salary e) eqn:Hsal; [| |done|];
      (eexists; split; [reflexivity|done]).
Qed.

(** X19.  After a successful upload of a file none of whose SALARY
    cells reads as NaN, into a store with distinct company ids whose
    listing answered before, the listing answers with the former
    entries followed by one entry per record, in order, whose
    [company_name] is the COMPANY_NAME cell of the record. *)
Theorem roundtrip_company_name file df db body db' old :
  upload_employees file db = (HTTP200 body, db') →
  read file = Some df →
  (∀ row, row ∈ rows df →
          py_float (cell_of df row "SALARY") ≠ Ok S754_nan) →
  NoDup (Company.id <$> companies db) →
  (get_employees db).1 = Ok old →
  ∃ new,
    (get_employees db').1 = Ok (old ++ new)
    ∧ Forall2
        (fun row entry =>
           cell_of df row "COMPANY_NAME"
           = CStr (EmployeeResponse.company_name entry))
        (rows df) new.
Proof.
  intros Hup Hread Hsalary Hids Hold.
  apply upload_employees_200 in Hup as (df' & Hacc & Hres).
  assert (df' = df) as ->.
  { destruct Hacc as (_ & Hr & _). congruence. }
  destruct Hacc as (_ & _ & Hcols).
  pose proof (persist_result_Ok df (company_names df) db body) as Hok.
  rewrite Hres in Hok.
  destruct Hok as (bound & table1 & objs & table2 & _ & Hc & Hobjs & Hsave
                   & _ & Hdb); [done|].
  simpl in Hdb. subst db'. clear Hres.
  rewrite get_employees_run in *. simpl in *. unfold listing in *.
  simpl.
  pose proof (save_companies_ids _ _ _ Hids Hc) as Hids1.
  apply save_companies_Ok in Hc as (added & -> & _).
  apply save_employees_Ok in Hsave as (new_rows & -> & Hnew).
  apply mapM_Ok_Forall2 in Hobjs.
  destruct (mapM_Forall2_Ok (entry_of (companies db ++ added))
              (fun row entry =>
                 cell_of df row "COMPANY_NAME"
                 = CStr (EmployeeResponse.company_name entry))
              (rows df) new_rows) as (new & Hmap & Hall).
  { by eapply new_entries. }
  exists new. split; [|done].
  apply mapM_app_Ok; [|done].
  eapply mapM_Ok_impl; [|exact Hold].
  intros emp r. apply entry_of_app.
Qed.
End RoundTrip.

(** ** The properties at the sample files *)

(** C1, counterexample.  The EMPLOYEE_ID cell is empty, [int] raises
    after the company was committed: the answer is 500 and the store has
    a company it had not. *)
Lemma rollback_keeps_company_counterexample :
  upload_employees (rt := literal_runtime) blank_number_file empty_db
  = (HTTP500 ValueError, {| companies := [acme]; employees := [] |})
  ∧ {| companies := [acme]; employees := [] |} ≠ empty_db.
Proof. split; [vm_compute; reflexivity|discriminate]. Qed.

(** C1, at the same file: the exception comes after the commit, and the
    company made of "Acme" stays. *)
Lemma upload_error_witness :
  ∃ added,
    Forall2 (fun name c =>
               sql_text (rt := literal_runtime) name
               = Ok (Company.company_name c))
      [CStr "Acme"] added
    ∧ upload_employees (rt := literal_runtime) blank_number_file empty_db
      = (HTTP500 ValueError, {| companies := companies empty_db ++ added;
                                employees := employees empty_db |}).
Proof.
  assert (accepted blank_number_file blank_number_frame) as Hacc.
  { split_and!; [vm_compute; reflexivity|reflexivity|done]. }
  eassert (persist (rt := literal_runtime) blank_number_frame
             (company_names blank_number_frame) (SessionLocal empty_db)
           = (Raise ValueError, _)) as Hp.
  { vm_compute. reflexivity. }
  pose proof (upload_error_keeps_committed_companies
                (rt := literal_runtime) blank_number_file blank_number_frame
                empty_db ValueError _ Hacc Hp) as Hup.
  assert (commit_companies (rt := literal_runtime)
            (company_names blank_number_frame) (SessionLocal empty_db)
          = (Ok [CStr "Acme"],
             SessionLocal {| companies := [acme]; employees := [] |}))
    as Hc.
  { vm_compute. reflexivity. }
  rewrite Hc in Hup. exact Hup.
Defined.

(** C2, counterexample.  The first upload of the staff file is answered
    200, the second 500. *)
Lemma reupload_counterexample :
  (upload_employees (rt := literal_runtime) staff_file empty_db).1
  = HTTP200 {| message := "Data uploaded successfully.";
               companies_created := 2; employees_created := 3 |}
  ∧ (upload_employees (rt := literal_runtime) staff_file
       (upload_employees (rt := literal_runtime) staff_file empty_db).2).1
    = HTTP500 IntegrityError.
Proof. split; vm_compute; reflexivity. Qed.

(** C2, at the staff file. *)
Lemma reupload_witness :
  upload_employees (rt := literal_runtime) staff_file
    (upload_employees (rt := literal_runtime) staff_file empty_db).2
  = (HTTP500 IntegrityError,
     (upload_employees (rt := literal_runtime) staff_file empty_db).2).
Proof.
  eapply (reupload_rejected (rt := literal_runtime) staff_file staff_frame
            empty_db).
  - vm_compute. reflexivity.
  - reflexivity.
  - discriminate.
Defined.



(** C4, at a store with one employee of an unknown company. *)
Lemma unresolved_company_witness :
  (get_employees orphan_db).1 = Raise ValidationError.
Proof.
  apply (unresolved_company_fails_listing orphan_db orphan).
  - simpl. left.
  - simpl. intros c Hc. inversion Hc.
Defined.

(** C5, counterexample.  The COMPANY_NAME cell is empty: a company
    without a name is inserted and committed, no name read back is equal
    to the cell, and the lookup raises. *)
Lemma blank_company_counterexample :
  upload_employees (rt := literal_runtime) blank_company_file empty_db
  = (HTTP500 KeyError,
     {| companies := [ {| Company.id := 1; Company.company_name := None |} ];
        employees := [] |}).
Proof. vm_compute. reflexivity. Qed.

Ltac each_row :=
  lazymatch goal with
  | |- Forall _ _ => idtac
  | |- _ => apply Forall_forall
  end;
  cbn [rows staff_frame];
  repeat apply List.Forall_cons; try apply List.Forall_nil.

Ltac decided := apply (bool_decide_unpack _); vm_compute; exact I.

Ltac integer :=
  eexists; split; [vm_compute; reflexivity|]; vm_compute; reflexivity.

(** C5, at the staff file. *)
Lemma text_company_names_witness :
  (upload_employees (rt := literal_runtime) staff_file empty_db).1
  ≠ HTTP500 KeyError.
Proof.
  apply (text_company_names_resolve (rt := literal_runtime)
           staff_file staff_frame empty_db).
  - split_and!; [vm_compute; reflexivity|reflexivity|done].
  - each_row; eexists; vm_compute; reflexivity.
Defined.

(** C6, at the staff file: two companies, three employees. *)
Lemma fresh_upload_witness :
  ∃ new_companies new_employees,
    upload_employees (rt := literal_runtime) staff_file empty_db
    = (HTTP200 {| message := "Data uploaded successfully.";
                  companies_created := length new_companies;
                  employees_created := length new_employees |},
       {| companies := new_companies; employees := new_employees |})
    ∧ length new_companies = 2%nat
    ∧ length new_employees = 3%nat.
Proof.
  apply (fresh_upload_counts (rt := literal_runtime)
           staff_file staff_frame empty_db).
  - split_and!.
    + split_and!; [vm_compute; reflexivity|reflexivity|done].
    + each_row; unfold row_well_formed, integer_cell;
        (split_and!;
         [ integer
         | eexists; vm_compute; reflexivity
         | first [left; vm_compute; reflexivity | right; integer]
         | first [left; vm_compute; reflexivity | right; integer]
         | eexists; vm_compute; reflexivity ]).
    + decided.
  - split; intros; simpl; apply not_elem_of_nil.
Defined.

(** X19, at the staff file. *)
Lemma roundtrip_witness :
  ∃ new,
    (get_employees
       (upload_employees (rt := literal_runtime) staff_file empty_db).2).1
    = Ok ([] ++ new)
    ∧ Forall2
        (fun row entry =>
           cell_of staff_frame row "COMPANY_NAME"
           = CStr (EmployeeResponse.company_name entry))
        (rows staff_frame) new.
Proof.
  eapply (roundtrip_company_name (rt := literal_runtime)
            staff_file staff_frame empty_db).
  - vm_compute. reflexivity.
  - reflexivity.
  - each_row; vm_compute; discriminate.
  - simpl. constructor.
  - reflexivity.
Defined.

(** C8, at a spreadsheet without SALARY. *)
Lemma missing_column_witness :
  upload_employees (rt := literal_runtime) no_salary_file empty_db
  = (HTTP400 "Missing required columns in file.", empty_db).
Proof.
  apply (missing_column_rejected (rt := literal_runtime)
           no_salary_file no_salary_frame empty_db "SALARY").
  - vm_compute. reflexivity.
  - reflexivity.
  - decided.
  - decided.
Defined.

(** C9, at the staff file. *)
Lemma null_manager_department_witness :
  ∃ new,
    employees (upload_employees (rt := literal_runtime) staff_file empty_db).2
    = employees empty_db ++ new
    ∧ Forall2
        (fun row e =>
           absent_or_int (rt := literal_runtime)
             (cell_of staff_frame row "MANAGER_ID") (Employee.manager_id e)
           ∧ absent_or_int (rt := literal_runtime)
               (cell_of staff_frame row "DEPARTMENT_ID")
               (Employee.department_id e))
        (rows staff_frame) new.
Proof.
  eapply (null_manager_department_absent (rt := literal_runtime)
            staff_file staff_frame empty_db).
  - vm_compute. reflexivity.
  - reflexivity.
Defined.

(** * Further properties of the handlers *)

Section Steps.
Context {rt : Runtime}.

(** The tables an upload leaves: each is the table before, or what a
    bulk save made of it. *)
Lemma persist_result_tables df names db :
  ∃ table1 table2,
    (persist_result df names db).2
    = {| companies := table1; employees := table2 |}
    ∧ (table1 = companies db
       ∨ ∃ new, save_companies new (companies db) = Ok table1)
    ∧ (table2 = employees db
       ∨ ∃ bound objs,
           mapM (new_employee df (company_name_to_id_of bound table1))
                (rows df) = Ok objs
           ∧ save_employees objs (employees db) = Ok table2).
Proof.
  unfold persist_result.
  destruct (mapM sql_text names) as [bound|e]; simpl.
  2:{ destruct db as [cs es]. exists cs, es. simpl. split_and!; auto. }
  destruct (save_companies _ (companies db)) as [table1|e] eqn:Hc; simpl.
  2:{ destruct db as [cs es]. exists cs, es. simpl. split_and!; auto. }
  destruct (mapM _ (rows df)) as [objs|e] eqn:Ho; simpl.
  2:{ exists table1, (employees db). split_and!; eauto. }
  destruct (save_employees objs (employees db)) as [table2|e] eqn:He; simpl.
  - exists table1, table2. split; [done|]. split; [eauto|].
    right. eauto.
  - exists table1, (employees db). split_and!; eauto.
Qed.

Lemma upload_employees_step file db :
  (upload_employees file db).2 = db
  ∨ ∃ df, accepted file df
          ∧ (upload_employees file db).2
            = (persist_result df (company_names df) db).2.
Proof.
  destruct (upload_employees_cases file db) as [[detail ->]|[df Hacc]];
    [by left|].
  right. exists df. split; [done|].
  by rewrite (upload_employees_accepted _ _ _ Hacc).
Qed.

Lemma run_uploads_invariant (I : DB → Prop) :
  (∀ file db, I db → I (upload_employees file db).2) →
  ∀ files db, I db → I (run_uploads files db).
Proof.
  intros Hstep files. unfold run_uploads.
  induction files as [|file files IH]; intros db Hdb; [done|].
  simpl. apply IH. by apply Hstep.
Qed.

Lemma upload_employees_tables file db :
  ∃ table1 table2,
    (upload_employees file db).2
    = {| companies := table1; employees := table2 |}
    ∧ (table1 = companies db
       ∨ ∃ new, save_companies new (companies db) = Ok table1)
    ∧ (table2 = employees db
       ∨ ∃ df bound objs,
           accepted file df
           ∧ mapM (new_employee df (company_name_to_id_of bound table1))
                  (rows df) = Ok objs
           ∧ save_employees objs (employees db) = Ok table2).
Proof.
  destruct (upload_employees_step file db) as [->|(df & Hacc & ->)].
  - destruct db as [cs es]. exists cs, es. simpl. split_and!; auto.
  - destruct (persist_result_tables df (company_names df) db)
      as (table1 & table2 & Hdb & Hc & [He|(bound & objs & Ho & He)]).
    + exists table1, table2. auto.
    + exists table1, table2. split; [done|]. split; [done|].
      right. by exists df, bound, objs.
Qed.

(** X1.  No exception leaves [upload_employees]: past the column check
    [df["COMPANY_NAME"]] is there, and what the [try] block raises is
    answered as a 500. *)
Theorem upload_never_unhandled file db e :
  (upload_employees file db).1 ≠ Unhandled e.
Proof.
  destruct (upload_employees_cases file db) as [[detail ->]|[df Hacc]];
    [done|].
  rewrite (upload_employees_accepted _ _ _ Hacc). unfold response_of. simpl.
  by destruct (persist_result df (company_names df) db).1.
Qed.

(** X2.  An upload is answered 400 exactly when the file is not
    accepted (extension, reader or columns), and a 400 leaves the store
    as it was. *)
Theorem bad_request_iff_not_accepted file db :
  ((∃ detail, (upload_employees file db).1 = HTTP400 detail)
   ↔ ¬ ∃ df, accepted file df)
  ∧ ∀ detail db',
      upload_employees file db = (HTTP400 detail, db') → db' = db.
Proof.
  assert (∀ df, accepted file df →
                ∀ detail, (upload_employees file db).1 ≠ HTTP400 detail)
    as Hacc.
  { intros df Hdf detail.
    rewrite (upload_employees_accepted _ _ _ Hdf). unfold response_of. simpl.
    by destruct (persist_result df (company_names df) db).1. }
  split; [split|].
  - intros [detail Hd] [df Hdf]. by eapply Hacc.
  - intros Hno.
    destruct (upload_employees_cases file db) as [[detail ->]|Hdf];
      [eauto|done].
  - intros detail db' Hup.
    destruct (upload_employees_cases file db) as [[d Hd]|[df Hdf]].
    + congruence.
    + destruct (Hacc df Hdf detail). by rewrite Hup.
Qed.

Lemma save_employees_app objs table table' :
  save_employees objs table = Ok table' → ∃ added, table' = table ++ added.
Proof. intros (added & -> & _)%save_employees_Ok. eauto. Qed.

(** X3.  Uploads only append: after any sequence of uploads each table
    is the former one followed by new rows; no row is changed or
    removed. *)
Theorem uploads_only_append files : ∀ db,
  ∃ new_companies new_employees,
    run_uploads files db
    = {| companies := companies db ++ new_companies;
         employees := employees db ++ new_employees |}.
Proof.
  unfold run_uploads.
  induction files as [|file files IH]; intros db.
  - exists [], []. rewrite !app_nil_r. by destruct db.
  - simpl.
    destruct (upload_employees_tables file db)
      as (table1 & table2 & -> & Hc & He).
    destruct (IH {| companies := table1; employees := table2 |})
      as (cs & es & ->). simpl.
    assert (∃ cs0, table1 = companies db ++ cs0) as [cs0 ->].
    { destruct Hc as [->|[new Hs]].
      - exists []. by rewrite app_nil_r.
      - apply save_companies_Ok in Hs as (added & -> & _). eauto. }
    assert (∃ es0, table2 = employees db ++ es0) as [es0 ->].
    { destruct He as [->|(df & bound & objs & _ & _ & Hs)].
      - exists []. by rewrite app_nil_r.
      - by apply save_employees_app in Hs. }
    exists (cs0 ++ cs), (es0 ++ es). by rewrite !app_assoc.
Qed.
End Steps.

Section Invariants.
Context {rt : Runtime}.

Lemma save_employees_numbers objs : ∀ table table',
  numbers_unique table →
  save_employees objs table = Ok table' →
  numbers_unique table'.
Proof.
  induction objs as [|e objs IH]; intros table table' Hu Hs;
    cbn [save_employees] in Hs.
  - by simplify_eq.
  - destruct (sql_int (Employee.new_employee_id e)); [|done].
    destruct (sql_opt_int (Employee.new_manager_id e)); [|done].
    destruct (sql_opt_int (Employee.new_department_id e)); [|done].
    cbn [mbind outcome_bind] in Hs.
    case_bool_decide as Hdup; [done|].
    eapply IH; [|exact Hs].
    intros i j e1 e2 n Hi Hj H1 H2.
    assert (∀ k e', table !! k = Some e' →
                    Employee.employee_id e' = Some n →
                    Employee.employee_id (saved_employee table e) = Some n →
                    False) as Hnew.
    { intros k e' Hk Hn Hsaved. apply Hdup.
      simpl in Hsaved. rewrite Hsaved, <- Hn.
      apply list_elem_of_fmap. exists e'. split; [done|].
      by eapply list_elem_of_lookup_2. }
    apply lookup_app_Some in Hi as [Hi|[Hli Hi]];
      apply lookup_app_Some in Hj as [Hj|[Hlj Hj]].
    + by eapply (Hu i j).
    + apply list_lookup_singleton_Some in Hj as [_ <-].
      destruct (Hnew _ _ Hi H1 H2).
    + apply list_lookup_singleton_Some in Hi as [_ <-].
      destruct (Hnew _ _ Hj H2 H1).
    + apply list_lookup_singleton_Some in Hi as [Hi _].
      apply list_lookup_singleton_Some in Hj as [Hj _]. lia.
Qed.

Lemma save_employees_ids objs : ∀ table table',
  NoDup (Employee.id <$> table) →
  save_employees objs table = Ok table' →
  NoDup (Employee.id <$> table').
Proof.
  induction objs as [|e objs IH]; intros table table' Hnd Hs;
    cbn [save_employees] in Hs.
  - by simplify_eq.
  - destruct (sql_int (Employee.new_employee_id e)); [|done].
    destruct (sql_opt_int (Employee.new_manager_id e)); [|done].
    destruct (sql_opt_int (Employee.new_department_id e)); [|done].
    cbn [mbind outcome_bind] in Hs.
    case_bool_decide; [done|].
    eapply IH; [|exact Hs].
    rewrite fmap_app. apply NoDup_app. split; [done|].
    split; [|apply NoDup_singleton].
    intros i Hi ->%list_elem_of_singleton. simpl in Hi.
    by apply next_id_fresh in Hi.
Qed.

(** The company of a new object is one the second query returned. *)
Lemma new_employee_company df bound table row e :
  (∀ col, col ∈ required_columns → col ∈ columns df) →
  new_employee df (company_name_to_id_of bound table) row = Ok e →
  ∃ c s, c ∈ table
         ∧ Company.id c = Employee.new_company_id e
         ∧ Company.company_name c = Some s
         ∧ cell_of df row "COMPANY_NAME" = CStr s.
Proof.
  intros Hcols (_ & _ & _ & _ & Hget)%new_employee_Ok; [|done].
  apply dict_getitem_Ok in Hget as (s & Hs & Hi).
  apply dict_lookup_id in Hi as [Hi|(c & Hcin & Hcn & Hci)]; [done|].
  apply elem_of_companies_in in Hcin as [_ Hcin].
  by exists c, s.
Qed.

(** X4.  Uniqueness of employee numbers is kept by every sequence of
    uploads. *)
Theorem employee_number_unique_invariant files db :
  employee_numbers_unique db →
  employee_numbers_unique (run_uploads files db).
Proof.
  revert files db. apply run_uploads_invariant. intros file db Hu.
  destruct (upload_employees_tables file db)
    as (table1 & table2 & -> & _ & [->|(df & bound & objs & _ & _ & Hs)]).
  - exact Hu.
  - eapply save_employees_numbers in Hs; [exact Hs|exact Hu].
Qed.

(** X5.  The ids of both tables stay distinct over every sequence of
    uploads. *)
Theorem ids_distinct_invariant files db :
  ids_distinct db → ids_distinct (run_uploads files db).
Proof.
  revert files db. apply run_uploads_invariant. intros file db [Hc He].
  destruct (upload_employees_tables file db)
    as (table1 & table2 & -> & Hc1 & He1).
  split; simpl.
  - destruct Hc1 as [->|[new Hs]]; [done|]. by eapply save_companies_ids.
  - destruct He1 as [->|(df & bound & objs & _ & _ & Hs)]; [done|].
    by eapply save_employees_ids.
Qed.

(** X6.  Uploads make no employee without a company: when every
    employee refers to a company of the store before a sequence of
    uploads, every employee does after. *)
Theorem references_resolve_invariant files db :
  references_resolve db → references_resolve (run_uploads files db).
Proof.
  revert files db. apply run_uploads_invariant. intros file db Hr.
  destruct (upload_employees_tables file db)
    as (table1 & table2 & -> & Hc1 & He1).
  assert (∃ cs, table1 = companies db ++ cs) as [cs ->].
  { destruct Hc1 as [->|[new Hs]].
    - exists []. by rewrite app_nil_r.
    - apply save_companies_Ok in Hs as (added & -> & _). eauto. }
  assert (∀ e, e ∈ employees db →
               ∃ c, c ∈ companies db ++ cs
                    ∧ Employee.company_id e = Some (Company.id c)) as Hold.
  { intros e (c & Hc & He)%Hr. exists c. split; [|done].
    apply elem_of_app. by left. }
  destruct He1 as [->|(df & bound & objs & (_ & _ & Hcols) & Ho & Hs)];
    [exact Hold|].
  apply save_employees_Ok in Hs as (new & -> & Hnew).
  apply mapM_Ok_Forall2 in Ho.
  intros e [He|He]%elem_of_app; [by apply Hold|]. simpl.
  clear Hold Hr Hc1. revert new Hnew e He.
  induction Ho as [|row o rows' objs' Hrow _ IH]; intros new Hnew e He.
  - inversion Hnew; subst. by apply elem_of_nil in He.
  - inversion Hnew as [|? r ? new' [t ->] Hrest]; subst.
    apply elem_of_cons in He as [->|He]; [|by eapply IH].
    apply new_employee_company in Hrow as (c & s & Hc & Hid & _); [|done].
    exists c. split; [done|]. simpl. by rewrite Hid.
Qed.

(** X7.  The counts of a 200 answer are the numbers of rows added to
    the two tables, and [employees_created] is the number of records of
    the file. *)
Theorem response_counts_rows file df db body db' :
  upload_employees file db = (HTTP200 body, db') →
  read file = Some df →
  ∃ new_companies new_employees,
    db' = {| companies := companies db ++ new_companies;
             employees := employees db ++ new_employees |}
    ∧ length new_companies = companies_created body
    ∧ length new_employees = employees_created body
    ∧ employees_created body = length (rows df).
Proof.
  intros Hup Hread.
  apply upload_employees_200 in Hup as (df' & Hacc & Hres).
  assert (df' = df) as ->.
  { destruct Hacc as (_ & Hr & _). congruence. }
  pose proof (persist_result_Ok df (company_names df) db body) as Hok.
  rewrite Hres in Hok.
  destruct Hok as (bound & table1 & objs & table2 & _ & Hc & Hobjs & Hsave
                   & -> & Hdb); [done|].
  simpl in Hdb. subst db'.
  apply save_companies_Ok in Hc as (cs & -> & Hcs).
  apply save_employees_Ok in Hsave as (es & -> & Hes).
  apply mapM_Ok_Forall2, Forall2_length in Hobjs.
  apply Forall2_length in Hes.
  exists cs, es. simpl. split_and!; [done|done|done|done].
Qed.

(** X8.  An accepted file without a record is answered 200 with both
    counts zero and leaves the store as it was. *)
Theorem no_record_no_change file df db :
  accepted file df →
  rows df = [] →
  upload_employees file db
  = (HTTP200 {| message := "Data uploaded successfully.";
                companies_created := 0; employees_created := 0 |}, db).
Proof.
  intros Hacc Hrows.
  rewrite (upload_employees_accepted _ _ _ Hacc).
  unfold persist_result, company_names. rewrite Hrows.
  destruct db as [cs es]. reflexivity.
Qed.

(** X9.  When every company name of an accepted file is text and in
    the store, the upload adds no company, whatever its answer. *)
Theorem known_companies_not_created file df db :
  accepted file df →
  (∀ row, row ∈ rows df →
          ∃ s, cell_of df row "COMPANY_NAME" = CStr s
               ∧ Some s ∈ Company.company_name <$> companies db) →
  companies (upload_employees file db).2 = companies db.
Proof.
  intros Hacc Hknown.
  rewrite (upload_employees_accepted _ _ _ Hacc).
  destruct (company_names_text df) as (l & Hl & Hnd & Hin).
  { intros row (s & Hs & _)%Hknown. eauto. }
  unfold persist_result, response_of. rewrite Hl, sql_text_names.
  rewrite new_companies_text.
  rewrite filter_none.
  2:{ intros s Hs%Hin Hnot. apply Hnot.
      apply list_elem_of_omap in Hs as (row & Hrow & Hcell).
      destruct (Hknown row Hrow) as (s' & Hs' & Hin').
      rewrite Hs' in Hcell. simpl in Hcell. by simplify_eq. }
  cbn [fmap list_fmap save_companies]. cbv zeta.
  destruct (mapM _ (rows df)) as [objs|e]; [|done].
  by destruct (save_employees objs (employees db)).
Qed.
End Invariants.

Section Success.
Context {rt : Runtime}.

Lemma save_companies_missing l table :
  NoDup l →
  ∃ added,
    save_companies (new_companies_of (CStr <$> l) (Some <$> l) table) table
    = Ok (table ++ added)
    ∧ Company.company_name <$> added
      = Some <$> filter (fun s => Some s ∉ Company.company_name <$> table) l.
Proof.
  intros Hnd. rewrite new_companies_text.
  apply save_companies_fresh.
  - by apply NoDup_filter.
  - by intros s [Hs _]%list_elem_of_filter.
Qed.

Lemma employees_saved df dict table :
  (∀ col, col ∈ required_columns → col ∈ columns df) →
  Forall (row_well_formed df) (rows df) →
  NoDup (employee_number df <$> rows df) →
  (∀ row, row ∈ rows df →
          Some (employee_number df row) ∉ Employee.employee_id <$> table) →
  (∀ row s, row ∈ rows df → cell_of df row "COMPANY_NAME" = CStr s →
            is_Some (dict !! Some s)) →
  ∃ objs added,
    mapM (new_employee df dict) (rows df) = Ok objs
    ∧ save_employees objs table = Ok (table ++ added)
    ∧ length objs = length (rows df)
    ∧ length added = length (rows df).
Proof.
  intros Hcols Hrows Hnd Hids Hdict. rewrite Forall_forall in Hrows.
  destruct (mapM_Ok_exists (new_employee df dict)
              (fun row e => Employee.new_employee_id e
                            = employee_number df row ∧ insertable e)
              (rows df)) as (objs & Hobjs & HF).
  { intros row Hrow. apply new_employee_well_formed; [done|by apply Hrows|].
    intros s Hs. by eapply Hdict. }
  assert (Employee.new_employee_id <$> objs
          = employee_number df <$> rows df) as Hnums.
  { clear -HF. induction HF as [|row e ? ? [He _] _ IH]; [done|].
    rewrite !fmap_cons. by rewrite He, IH. }
  destruct (save_employees_fresh objs table) as (new & Hsave & Hnew).
  - clear -HF. induction HF as [|? ? ? ? [_ ?] _ IH]; by constructor.
  - by rewrite Hnums.
  - intros e He.
    assert (Employee.new_employee_id e ∈ employee_number df <$> rows df)
      as Hn by (rewrite <- Hnums; apply list_elem_of_fmap; eauto).
    apply list_elem_of_fmap in Hn as (row & -> & Hrow). by apply Hids.
  - exists objs, new. apply Forall2_length in HF.
    split_and!; [done|done|done|]. by rewrite Hnew.
Qed.

(** X10.  A well-formed file whose employee numbers are not in the
    store is answered 200 in any store: a company is created for each
    name of the file the store lacks, once, and for no other, and one
    employee per record. *)
Theorem upload_creates_missing_companies file df db :
  well_formed file df →
  (∀ row, row ∈ rows df →
          Some (employee_number df row)
            ∉ Employee.employee_id <$> employees db) →
  ∃ missing new_companies new_employees,
    upload_employees file db
    = (HTTP200 {| message := "Data uploaded successfully.";
                  companies_created := length missing;
                  employees_created := length (rows df) |},
       {| companies := companies db ++ new_companies;
          employees := employees db ++ new_employees |})
    ∧ Company.company_name <$> new_companies = Some <$> missing
    ∧ NoDup missing
    ∧ (∀ s, s ∈ missing
            ↔ s ∈ company_texts df
              ∧ Some s ∉ Company.company_name <$> companies db)
    ∧ length new_employees = length (rows df).
Proof.
  intros (Hacc & Hrows & Hnd) Hids.
  rewrite (upload_employees_accepted _ _ _ Hacc).
  destruct Hacc as (_ & _ & Hcols).
  pose proof Hrows as Hrows'. rewrite Forall_forall in Hrows'.
  destruct (company_names_text df) as (l & Hl & Hndl & Hin).
  { intros row Hrow. apply Hrows' in Hrow. apply Hrow. }
  destruct (save_companies_missing l (companies db) Hndl)
    as (added & Hsave & Hadded).
  set (missing :=
         filter (fun s => Some s ∉ Company.company_name <$> companies db) l)
    in *.
  destruct (employees_saved df
              (company_name_to_id_of (Some <$> l) (companies db ++ added))
              (employees db)) as (objs & new & Hobjs & Hnew & Hlo & Hln);
    [done..| |].
  { intros row s Hrow Hs. apply dict_covers.
    - apply list_elem_of_fmap. exists s. split; [done|]. apply Hin.
      unfold company_texts. apply list_elem_of_omap.
      exists row. by rewrite Hs.
    - rewrite fmap_app, elem_of_app, Hadded.
      destruct (decide
                  (Some s ∈ Company.company_name <$> companies db))
        as [|Hno]; [by left|].
      right. apply list_elem_of_fmap. exists s. split; [done|].
      apply list_elem_of_filter. split; [done|]. apply Hin.
      unfold company_texts. apply list_elem_of_omap.
      exists row. by rewrite Hs. }
  exists missing, added, new.
  unfold persist_result, response_of.
  rewrite Hl, sql_text_names, Hsave. cbv zeta. rewrite Hobjs, Hnew. simpl.
  split_and!.
  - rewrite new_companies_text, length_fmap. fold missing. by rewrite Hlo.
  - done.
  - by apply NoDup_filter.
  - intros s. unfold missing. rewrite list_elem_of_filter, Hin. tauto.
  - done.
Qed.

Lemma save_employees_distinct objs : ∀ table table',
  save_employees objs table = Ok table' →
  NoDup (Employee.new_employee_id <$> objs)
  ∧ ∀ e, e ∈ objs →
         Some (Employee.new_employee_id e) ∉ Employee.employee_id <$> table.
Proof.
  induction objs as [|e objs IH]; intros table table' Hs;
    cbn [save_employees] in Hs.
  - split; [constructor|]. intros e He. by apply elem_of_nil in He.
  - destruct (sql_int (Employee.new_employee_id e)); [|done].
    destruct (sql_opt_int (Employee.new_manager_id e)); [|done].
    destruct (sql_opt_int (Employee.new_department_id e)); [|done].
    cbn [mbind outcome_bind] in Hs.
    case_bool_decide as Hdup; [done|].
    apply IH in Hs as [Hnd Hfresh]. split.
    + rewrite fmap_cons. constructor; [|done].
      intros (e' & Hid & He')%list_elem_of_fmap.
      apply (Hfresh e' He'). rewrite fmap_app, elem_of_app. right.
      simpl. rewrite Hid. by left.
    + intros e' [->|He']%elem_of_cons; [done|].
      intros Hin. apply (Hfresh e' He').
      rewrite fmap_app, elem_of_app. by left.
Qed.

(** X11.  A file that was answered 200 has no employee number twice
    and none that was in the store. *)
Theorem accepted_numbers_are_new file df db body db' :
  upload_employees file db = (HTTP200 body, db') →
  read file = Some df →
  NoDup (employee_number df <$> rows df)
  ∧ ∀ row, row ∈ rows df →
           Some (employee_number df row)
             ∉ Employee.employee_id <$> employees db.
Proof.
  intros Hup Hread.
  apply upload_employees_200 in Hup as (df' & Hacc & Hres).
  assert (df' = df) as ->.
  { destruct Hacc as (_ & Hr & _). congruence. }
  destruct Hacc as (_ & _ & Hcols).
  pose proof (persist_result_Ok df (company_names df) db body) as Hok.
  rewrite Hres in Hok.
  destruct Hok as (bound & table1 & objs & table2 & _ & _ & Hobjs & Hsave
                   & _ & _); [done|].
  apply save_employees_distinct in Hsave as [Hnd Hfresh].
  apply mapM_Ok_Forall2 in Hobjs.
  assert (Forall2 (fun row e => Employee.new_employee_id e
                                = employee_number df row) (rows df) objs)
    as Hnum.
  { eapply Forall2_impl; [exact Hobjs|]. intros row e Hrow.
    apply new_employee_Ok in Hrow as (Hid & _); [|done].
    unfold employee_number. by rewrite Hid. }
  assert (Employee.new_employee_id <$> objs
          = employee_number df <$> rows df) as Hnums.
  { clear -Hnum. induction Hnum as [|row e ? ? He _ IH]; [done|].
    rewrite !fmap_cons. by rewrite He, IH. }
  split; [by rewrite <- Hnums|].
  intros row Hrow.
  assert (employee_number df row ∈ Employee.new_employee_id <$> objs)
    as Hin by (rewrite Hnums; apply list_elem_of_fmap; eauto).
  apply list_elem_of_fmap in Hin as (e & -> & He). by apply Hfresh.
Qed.

Lemma new_employee_fields df dict row e :
  (∀ col, col ∈ required_columns → col ∈ columns df) →
  new_employee df dict row = Ok e →
  Employee.new_first_name e = py_str (cell_of df row "FIRST_NAME")
  ∧ Employee.new_last_name e = py_str (cell_of df row "LAST_NAME")
  ∧ Employee.new_phone_number e = py_str (cell_of df row "PHONE_NUMBER").
Proof.
  intros Hcols. rewrite new_employee_cells by done.
  destruct (py_int (cell_of df row "EMPLOYEE_ID")) as [z|]; [|done].
  destruct (py_float _) as [f|]; [|done].
  cbn [mbind outcome_bind].
  destruct (if negb (isnull (cell_of df row "MANAGER_ID")) then _ else _)
    as [m|]; [|done].
  destruct (if negb (isnull (cell_of df row "DEPARTMENT_ID")) then _ else _)
    as [d|]; [|done].
  destruct (dict_getitem dict _); [|done].
  cbn [mbind outcome_bind]. by intros [= <-].
Qed.

(** Every new row with the record and the object it comes from. *)
Lemma upload_employees_rows file df db body db' :
  upload_employees file db = (HTTP200 body, db') →
  read file = Some df →
  ∃ bound new,
    employees db' = employees db ++ new
    ∧ Forall2
        (fun row r =>
           ∃ e t, new_employee df
                    (company_name_to_id_of bound (companies db')) row = Ok e
                  ∧ r = saved_employee t e)
        (rows df) new
    ∧ ∀ col, col ∈ required_columns → col ∈ columns df.
Proof.
  intros Hup Hread.
  apply upload_employees_200 in Hup as (df' & Hacc & Hres).
  assert (df' = df) as ->.
  { destruct Hacc as (_ & Hr & _). congruence. }
  destruct Hacc as (_ & _ & Hcols).
  pose proof (persist_result_Ok df (company_names df) db body) as Hok.
  rewrite Hres in Hok.
  destruct Hok as (bound & table1 & objs & table2 & _ & _ & Hobjs & Hsave
                   & _ & Hdb); [done|].
  simpl in Hdb. subst db'. simpl.
  apply save_employees_Ok in Hsave as (new & -> & Hnew).
  apply mapM_Ok_Forall2 in Hobjs.
  exists bound, new. split; [done|]. split; [|done].
  clear -Hobjs Hnew. revert new Hnew.
  induction Hobjs as [|row e rows' objs' Hrow _ IH]; intros new Hnew.
  - inversion Hnew. constructor.
  - inversion Hnew as [|? r ? new' [t ->] Hrest]; subst.
    constructor; [eauto|by apply IH].
Qed.

(** X12.  After a 200 answer the new rows carry, record by record,
    the number coerced by [int], the names and the phone number turned to
    text by [str], and the salary coerced by [float], NULL for NaN. *)
Theorem records_stored_as_coerced file df db body db' :
  upload_employees file db = (HTTP200 body, db') →
  read file = Some df →
  ∃ new,
    employees db' = employees db ++ new
    ∧ Forall2 (stored_as df) (rows df) new.
Proof.
  intros Hup Hread.
  destruct (upload_employees_rows _ _ _ _ _ Hup Hread)
    as (bound & new & Hdb & Hall & Hcols).
  exists new. split; [done|].
  eapply Forall2_impl; [exact Hall|].
  intros row r (e & t & He & ->).
  pose proof (new_employee_fields _ _ _ _ Hcols He) as (Hf & Hl & Hp).
  apply new_employee_Ok in He as (Hid & _ & _ & Hsal & _); [|done].
  unfold stored_as. simpl. rewrite Hf, Hl, Hp. split_and!; eauto.
Qed.

(** X13.  After a 200 answer every new employee refers to a company
    of the store whose name is the COMPANY_NAME cell of its record. *)
Theorem new_employees_linked_by_name file df db body db' :
  upload_employees file db = (HTTP200 body, db') →
  read file = Some df →
  ∃ new,
    employees db' = employees db ++ new
    ∧ Forall2
        (fun row e =>
           ∃ c s, c ∈ companies db'
                  ∧ Employee.company_id e = Some (Company.id c)
                  ∧ Company.company_name c = Some s
                  ∧ cell_of df row "COMPANY_NAME" = CStr s)
        (rows df) new.
Proof.
  intros Hup Hread.
  destruct (upload_employees_rows _ _ _ _ _ Hup Hread)
    as (bound & new & Hdb & Hall & Hcols).
  exists new. split; [done|].
  eapply Forall2_impl; [exact Hall|].
  intros row r (e & t & He & ->).
  apply new_employee_company in He as (c & s & Hc & Hid & Hn & Hs); [|done].
  exists c, s. simpl. by rewrite Hid.
Qed.
(** C7 (what the code does).  When a file that was answered 200 has a
    record whose SALARY cell reads as NaN, as an empty cell does, the
    salary is stored as NULL and the listing no longer answers: making
    the entry of that employee raises a validation error. *)
Theorem blank_salary_breaks_listing file df db body db' row :
  upload_employees file db = (HTTP200 body, db') →
  read file = Some df →
  row ∈ rows df →
  py_float (cell_of df row "SALARY") = Ok S754_nan →
  (get_employees db').1 = Raise ValidationError.
Proof.
  intros Hup Hread Hrow Hnan.
  destruct (upload_employees_rows _ _ _ _ _ Hup Hread)
    as (bound & new & Hdb & Hall & Hcols).
  apply list_elem_of_lookup in Hrow as [i Hi].
  destruct (Forall2_lookup_l _ _ _ _ _ Hall Hi)
    as (r & Hr & e & t & He & ->).
  apply new_employee_Ok in He as (_ & _ & _ & Hsal & _); [|done].
  rewrite Hnan in Hsal. injection Hsal as Hsal.
  rewrite get_employees_run. simpl. unfold listing.
  eapply (mapM_Raise_elem _ _ _ (saved_employee t e));
    [apply entry_of_Raise| |].
  - rewrite Hdb. apply elem_of_app. right.
    by eapply list_elem_of_lookup_2.
  - unfold entry_of, saved_employee. simpl. by rewrite <- Hsal.
Qed.
End Success.

Section Entries.

Lemma entry_of_Ok table emp r :
  entry_of table emp = Ok r → entry_mirrors table emp r.
Proof.
  unfold entry_of, entry_mirrors, EmployeeResponse.make,
    EmployeeResponse.required.
  destruct (Employee.employee_id emp); [|done].
  destruct (Employee.first_name emp); [|done].
  destruct (Employee.last_name emp); [|done].
  destruct (Employee.phone_number emp); [|done].
  destruct (Employee.salary emp); [|done].
  destruct (find_company table (Employee.company_id emp)) as [c|] eqn:Hc;
    [|done].
  destruct (Company.company_name c) as [name|] eqn:Hn; [|done].
  cbn [mbind outcome_bind]. intros [= <-]. simpl.
  split_and!; try done.
  exists c. unfold find_company in Hc.
  destruct (Employee.company_id emp) as [i|]; [|done].
  apply find_some in Hc as [Hin Hid].
  apply bool_decide_eq_true in Hid.
  split; [by apply list_elem_of_In|]. by rewrite Hid.
Qed.

Lemma entry_of_complete table emp :
  (∃ r, entry_of table emp = Ok r) ↔ complete table emp.
Proof.
  unfold entry_of, complete, EmployeeResponse.make,
    EmployeeResponse.required.
  split.
  - intros [r Hr].
    destruct (Employee.employee_id emp); [|done].
    destruct (Employee.first_name emp); [|done].
    destruct (Employee.last_name emp); [|done].
    destruct (Employee.phone_number emp); [|done].
    destruct (Employee.salary emp); [|done].
    destruct (find_company table (Employee.company_id emp)) as [c|];
      [|done].
    destruct (Company.company_name c) as [name|] eqn:Hn; [|done].
    split_and!; eauto.
  - intros ([z ->] & [f ->] & [l ->] & [p ->] & [s ->]
            & c & -> & [name ->]).
    eauto.
Qed.

(** X14.  When the listing answers, it has one entry per employee, in
    storage order, with the columns of the row and the name of the
    company the row refers to. *)
Theorem listing_mirrors_rows db entries :
  (get_employees db).1 = Ok entries →
  Forall2 (entry_mirrors (companies db)) (employees db) entries.
Proof.
  rewrite get_employees_run. simpl. unfold listing.
  intros Hm%mapM_Ok_Forall2.
  eapply Forall2_impl; [exact Hm|]. apply entry_of_Ok.
Qed.

(** X15.  The listing answers exactly when no employee has a NULL in
    a required column and each one's company is found and has a name;
    what it raises otherwise is a validation error. *)
Theorem listing_answers_iff_complete db :
  ((∃ entries, (get_employees db).1 = Ok entries)
   ↔ Forall (complete (companies db)) (employees db))
  ∧ ∀ e, (get_employees db).1 = Raise e → e = ValidationError.
Proof.
  rewrite get_employees_run. simpl. unfold listing. split; [split|].
  - intros [entries Hm%mapM_Ok_Forall2].
    apply Forall_forall. intros emp Hemp.
    apply list_elem_of_lookup in Hemp as [i Hi].
    destruct (Forall2_lookup_l _ _ _ _ _ Hm Hi) as (r & _ & Hr).
    apply entry_of_complete. eauto.
  - intros Hall. rewrite Forall_forall in Hall.
    destruct (mapM_Ok_exists (entry_of (companies db)) (fun _ _ => True)
                (employees db)) as (entries & Hm & _); [|eauto].
    intros emp Hemp. apply Hall, entry_of_complete in Hemp as [r Hr].
    eauto.
  - intros e (emp & _ & He)%mapM_Raise_inv. by eapply entry_of_Raise.
Qed.
End Entries.

Section Reachable.
Context {rt : Runtime}.

(** X16.  Every sequence of uploads keeps the store well linked:
    company ids distinct, and every employee with its number, names,
    phone number and a named company of the store. *)
Theorem well_linked_invariant files db :
  well_linked db → well_linked (run_uploads files db).
Proof.
  revert files db. apply run_uploads_invariant. intros file db [Hids Hl].
  destruct (upload_employees_tables file db)
    as (table1 & table2 & -> & Hc1 & He1).
  assert (NoDup (Company.id <$> table1)) as Hids1.
  { destruct Hc1 as [->|[new Hs]]; [done|]. by eapply save_companies_ids. }
  assert (∃ cs, table1 = companies db ++ cs) as [cs Hcs].
  { destruct Hc1 as [->|[new Hs]].
    - exists []. by rewrite app_nil_r.
    - apply save_companies_Ok in Hs as (added & -> & _). eauto. }
  split; [done|]. cbn [companies employees].
  assert (∀ e, e ∈ employees db →
            is_Some (Employee.employee_id e)
            ∧ is_Some (Employee.first_name e)
            ∧ is_Some (Employee.last_name e)
            ∧ is_Some (Employee.phone_number e)
            ∧ ∃ c, c ∈ table1
                   ∧ Employee.company_id e = Some (Company.id c)
                   ∧ is_Some (Company.company_name c)) as Hold.
  { intros e (? & ? & ? & ? & c & Hc & ? & ?)%Hl. split_and!; [done..|].
    exists c. split; [|done]. rewrite Hcs. apply elem_of_app. by left. }
  destruct He1 as [->|(df & bound & objs & (_ & _ & Hcols) & Ho & Hs)];
    [exact Hold|].
  apply save_employees_Ok in Hs as (new & -> & Hnew).
  apply mapM_Ok_Forall2 in Ho.
  intros e [He|He]%elem_of_app; [by apply Hold|].
  clear Hold Hl Hc1 Hcs. revert new Hnew e He.
  induction Ho as [|row o rows' objs' Hrow _ IH]; intros new Hnew e He.
  - inversion Hnew; subst. by apply elem_of_nil in He.
  - inversion Hnew as [|? r ? new' [t ->] Hrest]; subst.
    apply elem_of_cons in He as [->|He]; [|by eapply IH].
    apply new_employee_company in Hrow as (c & s & Hc & Hid & Hn & _);
      [|done].
    simpl. split_and!; [eauto..|].
    exists c. rewrite Hid, Hn. eauto.
Qed.

(** X17.  On a well-linked store the listing answers exactly when no
    employee has a NULL salary. *)
Theorem listing_needs_salaries db :
  well_linked db →
  (∃ entries, (get_employees db).1 = Ok entries)
  ↔ ∀ e, e ∈ employees db → is_Some (Employee.salary e).
Proof.
  intros [Hids Hl]. rewrite get_employees_run. simpl. unfold listing.
  split.
  - intros [entries Hm%mapM_Ok_Forall2] emp Hemp.
    apply list_elem_of_lookup in Hemp as [i Hi].
    destruct (Forall2_lookup_l _ _ _ _ _ Hm Hi) as (r & _ & Hr).
    assert (complete (companies db) emp) as Hc
      by (apply entry_of_complete; eauto).
    apply Hc.
  - intros Hsal.
    destruct (mapM_Ok_exists (entry_of (companies db)) (fun _ _ => True)
                (employees db)) as (entries & Hm & _); [|eauto].
    intros emp Hemp.
    destruct (Hl emp Hemp) as (? & ? & ? & ? & c & Hc & Hid & Hn).
    destruct (proj2 (entry_of_complete (companies db) emp)) as [r Hr];
      [|eauto].
    split_and!; [done|done|done|done|by apply Hsal|].
    exists c. split; [|done].
    rewrite Hid. by apply find_company_unique.
Qed.

Lemma save_employees_insertable objs : ∀ table table',
  save_employees objs table = Ok table' → Forall insertable objs.
Proof.
  induction objs as [|e objs IH]; intros table table' Hs;
    cbn [save_employees] in Hs; [constructor|].
  destruct (sql_int (Employee.new_employee_id e)) eqn:Ez; [|done].
  destruct (sql_opt_int (Employee.new_manager_id e)) eqn:Em; [|done].
  destruct (sql_opt_int (Employee.new_department_id e)) eqn:Ed; [|done].
  cbn [mbind outcome_bind] in Hs.
  case_bool_decide; [done|].
  constructor; [|by eapply IH].
  pose proof Ez as ->%sql_int_inv.
  pose proof Em as ->%sql_opt_int_inv.
  pose proof Ed as ->%sql_opt_int_inv.
  done.
Qed.

Lemma sql_int_fits z : sql_int z = Ok z → fits_int64 z = true.
Proof. unfold sql_int. by destruct (fits_int64 z). Qed.

Lemma absent_or_int_fits c v :
  absent_or_int c v → sql_opt_int v = Ok v →
  isnull c = true ∨ integer_cell c.
Proof.
  unfold absent_or_int, integer_cell.
  destruct (isnull c); [by left|].
  intros (z & Hz & ->) Hv. right. exists z. split; [done|].
  simpl in Hv. destruct (sql_int z) as [z'|] eqn:Hs; [|done].
  pose proof Hs as ->%sql_int_inv. by apply sql_int_fits.
Qed.

(** X18.  A file that was answered 200 is accepted and each of its
    records is well formed: cells that [int] and [float] take, integers
    that fit 64 bits, a text company name. *)
Theorem accepted_records_well_formed file df db body db' :
  upload_employees file db = (HTTP200 body, db') →
  read file = Some df →
  accepted file df ∧ Forall (row_well_formed df) (rows df).
Proof.
  intros Hup Hread.
  apply upload_employees_200 in Hup as (df' & Hacc & Hres).
  assert (df' = df) as ->.
  { destruct Hacc as (_ & Hr & _). congruence. }
  split; [done|].
  destruct Hacc as (_ & _ & Hcols).
  pose proof (persist_result_Ok df (company_names df) db body) as Hok.
  rewrite Hres in Hok.
  destruct Hok as (bound & table1 & objs & table2 & _ & _ & Hobjs & Hsave
                   & _ & _); [done|].
  apply save_employees_insertable in Hsave.
  apply mapM_Ok_Forall2 in Hobjs.
  clear Hres. induction Hobjs as [|row e rows' objs' Hrow _ IH];
    [constructor|].
  apply Forall_cons in Hsave as [(He & Hm & Hd) Hsave].
  constructor; [|by apply IH].
  apply new_employee_Ok in Hrow as (Hid & Hman & Hdep & Hsal & Hget);
    [|done].
  apply dict_getitem_Ok in Hget as (s & Hs & _).
  unfold row_well_formed. split_and!.
  - exists (Employee.new_employee_id e). split; [done|].
    by apply sql_int_fits.
  - eauto.
  - by eapply absent_or_int_fits.
  - by eapply absent_or_int_fits.
  - eauto.
Qed.
End Reachable.

(** ** The further properties at the sample files *)

Ltac nothing_stored :=
  intros i j ? ? ? Hi; simpl in Hi; discriminate.

Ltac each_record :=
  lazymatch goal with
  | |- Forall _ _ => idtac
  | |- _ => apply Forall_forall
  end;
  cbn [rows staff_frame hires_frame];
  repeat apply List.Forall_cons; try apply List.Forall_nil.

Ltac accepts := split_and!; [vm_compute; reflexivity|reflexivity|done].

(** X4, from the empty store. *)
Lemma employee_number_unique_witness :
  employee_numbers_unique
    (run_uploads (rt := literal_runtime)
       [staff_file; hires_file; staff_file] empty_db).
Proof.
  apply (employee_number_unique_invariant (rt := literal_runtime)).
  nothing_stored.
Defined.

(** X5, from the empty store. *)
Lemma ids_distinct_witness :
  ids_distinct
    (run_uploads (rt := literal_runtime)
       [staff_file; blank_company_file; hires_file] empty_db).
Proof.
  apply (ids_distinct_invariant (rt := literal_runtime)).
  split; apply NoDup_nil_2.
Defined.

(** X6, from the empty store. *)
Lemma references_resolve_witness :
  references_resolve
    (run_uploads (rt := literal_runtime)
       [staff_file; blank_number_file; hires_file] empty_db).
Proof.
  apply (references_resolve_invariant (rt := literal_runtime)).
  intros e He. simpl in He. by apply elem_of_nil in He.
Defined.

(** X7, at the staff file. *)
Lemma response_counts_witness :
  ∃ new_companies new_employees,
    staff_db = {| companies := companies empty_db ++ new_companies;
                  employees := employees empty_db ++ new_employees |}
    ∧ length new_companies = 2%nat
    ∧ length new_employees = 3%nat
    ∧ 3%nat = length (rows staff_frame).
Proof.
  eapply (response_counts_rows (rt := literal_runtime) staff_file staff_frame
            empty_db
            {| message := "Data uploaded successfully.";
               companies_created := 2; employees_created := 3 |}).
  - vm_compute. reflexivity.
  - reflexivity.
Defined.

(** X8, at a file of the header alone. *)
Lemma no_record_witness :
  upload_employees (rt := literal_runtime) header_only_file staff_db
  = (HTTP200 {| message := "Data uploaded successfully.";
                companies_created := 0; employees_created := 0 |}, staff_db).
Proof.
  eapply (no_record_no_change (rt := literal_runtime) header_only_file).
  - accepts.
  - reflexivity.
Defined.

(** X9, at the staff file uploaded again. *)
Lemma known_companies_witness :
  companies (upload_employees (rt := literal_runtime) staff_file staff_db).2
  = companies staff_db.
Proof.
  apply (known_companies_not_created (rt := literal_runtime)
           staff_file staff_frame staff_db).
  - accepts.
  - each_record; eexists; (split; [vm_compute; reflexivity|]);
      apply (bool_decide_unpack _); vm_compute; exact I.
Defined.

(** X10, at the hires file after the staff file: one company is missing. *)
Lemma missing_companies_witness :
  ∃ missing new_companies new_employees,
    upload_employees (rt := literal_runtime) hires_file staff_db
    = (HTTP200 {| message := "Data uploaded successfully.";
                  companies_created := length missing;
                  employees_created := length (rows hires_frame) |},
       {| companies := companies staff_db ++ new_companies;
          employees := employees staff_db ++ new_employees |})
    ∧ Company.company_name <$> new_companies = Some <$> missing
    ∧ NoDup missing
    ∧ (∀ s, s ∈ missing
            ↔ s ∈ company_texts hires_frame
              ∧ Some s ∉ Company.company_name <$> companies staff_db)
    ∧ length new_employees = length (rows hires_frame).
Proof.
  apply (upload_creates_missing_companies (rt := literal_runtime)
           hires_file hires_frame staff_db).
  - split_and!.
    + accepts.
    + each_record; unfold row_well_formed, integer_cell;
        (split_and!;
         [ eexists; split; [vm_compute; reflexivity|]; vm_compute; reflexivity
         | eexists; vm_compute; reflexivity
         | right; eexists; split; [vm_compute; reflexivity|];
           vm_compute; reflexivity
         | right; eexists; split; [vm_compute; reflexivity|];
           vm_compute; reflexivity
         | eexists; vm_compute; reflexivity ]).
    + apply (bool_decide_unpack _); vm_compute; exact I.
  - each_record; apply (bool_decide_unpack _); vm_compute; exact I.
Defined.

(** X11, at the hires file. *)
Lemma accepted_numbers_witness :
  NoDup (employee_number (rt := literal_runtime) hires_frame
           <$> rows hires_frame)
  ∧ ∀ row, row ∈ rows hires_frame →
           Some (employee_number (rt := literal_runtime) hires_frame row)
             ∉ Employee.employee_id <$> employees staff_db.
Proof.
  eapply (accepted_numbers_are_new (rt := literal_runtime) hires_file
            hires_frame staff_db).
  - vm_compute. reflexivity.
  - reflexivity.
Defined.

(** X12, at the hires file. *)
Lemma records_stored_witness :
  ∃ new,
    employees (upload_employees (rt := literal_runtime) hires_file staff_db).2
    = employees staff_db ++ new
    ∧ Forall2 (stored_as (rt := literal_runtime) hires_frame)
        (rows hires_frame) new.
Proof.
  eapply (records_stored_as_coerced (rt := literal_runtime) hires_file
            hires_frame staff_db).
  - vm_compute. reflexivity.
  - reflexivity.
Defined.

(** X13, at the hires file. *)
Lemma new_employees_linked_witness :
  ∃ new,
    employees (upload_employees (rt := literal_runtime) hires_file staff_db).2
    = employees staff_db ++ new
    ∧ Forall2
        (fun row e =>
           ∃ c s,
             c ∈ companies
                   (upload_employees (rt := literal_runtime)
                      hires_file staff_db).2
             ∧ Employee.company_id e = Some (Company.id c)
             ∧ Company.company_name c = Some s
             ∧ cell_of hires_frame row "COMPANY_NAME" = CStr s)
        (rows hires_frame) new.
Proof.
  eapply (new_employees_linked_by_name (rt := literal_runtime) hires_file
            hires_frame staff_db).
  - vm_compute. reflexivity.
  - reflexivity.
Defined.

(** X14, at the store the staff file makes. *)
Lemma listing_mirrors_witness :
  ∃ entries,
    (get_employees staff_db).1 = Ok entries
    ∧ Forall2 (entry_mirrors (companies staff_db)) (employees staff_db)
        entries.
Proof.
  eexists. split; [vm_compute; reflexivity|].
  apply (listing_mirrors_rows staff_db). vm_compute. reflexivity.
Defined.

(** X16, from the empty store. *)
Lemma well_linked_witness :
  well_linked
    (run_uploads (rt := literal_runtime)
       [staff_file; blank_salary_file; hires_file] empty_db).
Proof.
  apply (well_linked_invariant (rt := literal_runtime)).
  split; [apply NoDup_nil_2|].
  intros e He. simpl in He. by apply elem_of_nil in He.
Defined.

(** X17, at the store the staff file makes. *)
Lemma listing_needs_salaries_witness :
  (∃ entries, (get_employees staff_db).1 = Ok entries)
  ↔ ∀ e, e ∈ employees staff_db → is_Some (Employee.salary e).
Proof.
  apply (listing_needs_salaries staff_db).
  split; [apply (bool_decide_unpack _); vm_compute; exact I|].
  apply Forall_forall. cbn [employees staff_db].
  repeat apply List.Forall_cons; try apply List.Forall_nil;
    (split_and!; [eauto..|]);
    first [ exists acme; split_and!; [by left|reflexivity|by eexists]
          | exists {| Company.id := 2;
                      Company.company_name := Some "Initech" |};
            split_and!; [right; by left|reflexivity|by eexists] ].
Defined.

(** X18, at the hires file. *)
Lemma accepted_records_witness :
  accepted hires_file hires_frame
  ∧ Forall (row_well_formed (rt := literal_runtime) hires_frame)
      (rows hires_frame).
Proof.
  eapply (accepted_records_well_formed (rt := literal_runtime) hires_file
            hires_frame staff_db).
  - vm_compute. reflexivity.
  - reflexivity.
Defined.

(** C7, at a file whose one SALARY cell is empty: the upload is answered
    200 and the listing raises. *)
Lemma blank_salary_witness :
  (upload_employees (rt := literal_runtime) blank_salary_file empty_db).1
  = HTTP200 {| message := "Data uploaded successfully.";
               companies_created := 1; employees_created := 1 |}
  ∧ (get_employees
       (upload_employees (rt := literal_runtime) blank_salary_file empty_db).2).1
    = Raise ValidationError.
Proof.
  split; [vm_compute; reflexivity|].
  eapply (blank_salary_breaks_listing (rt := literal_runtime)
            blank_salary_file _ empty_db _ _
            (record (CInt 1) "Ann" "Lee" "555-0101" (CStr "Acme")
               NaN NaN NaN)).
  - vm_compute. reflexivity.
  - reflexivity.
  - simpl. by left.
  - vm_compute. reflexivity.
Defined.
